(** * OPIC automatic grader: the assessment pipeline, embedded and verified

    A shallow embedding of the scoring, grading, feedback, model-loading and
    transcription code of the grader
    ([services/scoring_service.py], [services/feedback_service.py],
    [models/ml_models.py], [services/audio_service.py], [models/schemas.py]),
    followed by the properties of that code.

    Conventions of the embedding.
    - A Python [float] score is a rational ([Q]): comparisons with the integer
      thresholds of the code are exact on finite floats, and so are they here.
      Binary representation error of float arithmetic is outside the model.
    - A Python [str] is the list of its code points ([pystr]); [len] is the
      length of that list.
    - A call that may raise returns a [result]; an [except Exception] clause
      is a [match] on it.
    - What a machine-learned model answers is not a function of the program:
      it is an input of the embedding (an oracle), either a value or the
      exception the call raised. *)

From Stdlib Require Import ZArith QArith Qround Qabs Lia Lqa List String Ascii DecimalString.
From stdpp Require Import base gmap strings list.

(* ===================================================================== *)
(** * Part I: the program                                                 *)
(* ===================================================================== *)

(** ** Python values used by the services *)

Module Py.

(** A [str]: its code points. *)
Abbreviation pystr := (list N).

(** Decoder for the literals of the source, written here as UTF-8 text. *)
Fixpoint utf8_go (pending : nat) (acc : N) (bs : list N) : pystr :=
  match bs with
  | [] => []
  | b :: bs' =>
      match pending with
      | O =>
          if (b <? 128)%N then b :: utf8_go 0 0%N bs'
          else if (b <? 224)%N then utf8_go 1 (b - 192)%N bs'
          else if (b <? 240)%N then utf8_go 2 (b - 224)%N bs'
          else utf8_go 3 (b - 240)%N bs'
      | S O => (acc * 64 + (b - 128))%N :: utf8_go 0 0%N bs'
      | S p => utf8_go p (acc * 64 + (b - 128))%N bs'
      end
  end.

Definition u (s : string) : pystr :=
  utf8_go 0 0%N (List.map N_of_ascii (list_ascii_of_string s)).

(** ['\n'] *)
Definition NL : N := 10%N.

(** [str(n)] for an [int]. *)
Definition str_of_int (n : Z) : pystr :=
  u (NilZero.string_of_int (Z.to_int n)).

(** Exceptions, by class. [ModelError] stands for whatever the inference
    libraries raise. *)
Inductive exn : Type :=
| KeyError (key : string)
| ValueError (msg : string)
| FileNotFoundError (path : string)
| ValidationError (field : string)
| TypeError (msg : string)
| ModelError (msg : string).

(** The outcome of a call: the value returned or the exception raised. *)
Inductive result (A : Type) : Type :=
| Returned (a : A)
| Raised (e : exn).
Arguments Returned {A} a.
Arguments Raised {A} e.

Definition bind {A B} (c : result A) (k : A -> result B) : result B :=
  match c with
  | Returned a => k a
  | Raised e => Raised e
  end.

(** Comparisons of numbers. *)
Definition leb (x y : Q) : bool := Qle_bool x y.
Definition ltb (x y : Q) : bool := negb (Qle_bool y x).

(** [min(a, b)] and [max(a, b)]: the first argument unless the second is
    strictly smaller (resp. larger). *)
Definition min (a b : Q) : Q := if ltb b a then b else a.
Definition max (a b : Q) : Q := if ltb a b then b else a.

(** Rounding to the nearest integer, ties to the even one. *)
Definition round_half_even (q : Q) : Z :=
  let f := Qfloor q in
  match Qcompare (q - inject_Z f) (1 # 2) with
  | Lt => f
  | Gt => (f + 1)%Z
  | Eq => if Z.even f then f else (f + 1)%Z
  end.

(** [round(x, 2)]. *)
Definition round2 (x : Q) : Q := round_half_even (x * 100) # 100.

(** Objects that are not numbers or strings of the services: what a
    pipeline hands back. *)

Inductive pyval : Type :=
| PNone
| PStr (s : pystr)
| PFloat (x : Q)
| PObject (repr : string)   (* any other object *)
| PAttr (name : string).    (* an attribute of a built-in type: a bound method *)

(** The attributes of a [dict] object ([dir(dict)]): they come from its type.
    The keys of a dict are items, not attributes. *)
Definition dict_attributes : list string :=
  [ "clear"; "copy"; "fromkeys"; "get"; "items"; "keys"; "pop"; "popitem";
    "setdefault"; "update"; "values";
    "__class__"; "__class_getitem__"; "__contains__"; "__delattr__";
    "__delitem__"; "__dir__"; "__doc__"; "__eq__"; "__format__"; "__ge__";
    "__getattribute__"; "__getitem__"; "__getstate__"; "__gt__"; "__hash__";
    "__init__"; "__init_subclass__"; "__ior__"; "__iter__"; "__le__";
    "__len__"; "__lt__"; "__ne__"; "__new__"; "__or__"; "__reduce__";
    "__reduce_ex__"; "__repr__"; "__reversed__"; "__ror__"; "__setattr__";
    "__setitem__"; "__sizeof__"; "__str__"; "__subclasshook__" ].

(** [getattr(d, name, default)] for a dict [d]. *)
Definition getattr (d : gmap string pyval) (name : string) (default : pyval) : pyval :=
  if bool_decide (name ∈ dict_attributes) then PAttr name else default.

(** [d[key]] *)
Definition getitem (d : gmap string pyval) (key : string) : result pyval :=
  match d !! key with
  | Some v => Returned v
  | None => Raised (KeyError key)
  end.

(** [d.get(key)] *)
Definition get (d : gmap string pyval) (key : string) : pyval :=
  match d !! key with
  | Some v => v
  | None => PNone
  end.

End Py.

Import Py.
#[export] Instance result_ret : MRet result := @Returned.
#[export] Instance result_bind : MBind result := fun A B k c => Py.bind c k.

(** ** [models/schemas.py] *)

Module Schemas.

Inductive GradeEnum : Type := NH | IL | IM | IH | AL.

(** The fields of [ScoreBreakdown]. *)
Record ScoreBreakdown : Type := {
  task_completion : Q;
  accuracy : Q;
  appropriateness : Q;
  total : Q
}.

(** [ge]/[le] bounds of a pydantic [Field]. *)
Definition in_range (lo hi x : Q) : bool := Py.leb lo x && Py.leb x hi.

(** [ScoreBreakdown(task_completion=..., ...)]: the constructor validates
    [Field(..., ge=0, le=10)] on the criteria and [le=30] on the total. *)
Definition new_ScoreBreakdown (tc acc app tot : Q) : result ScoreBreakdown :=
  if negb (in_range 0 10 tc) then Raised (ValidationError "task_completion")
  else if negb (in_range 0 10 acc) then Raised (ValidationError "accuracy")
  else if negb (in_range 0 10 app) then Raised (ValidationError "appropriateness")
  else if negb (in_range 0 30 tot) then Raised (ValidationError "total")
  else Returned {| task_completion := tc; accuracy := acc;
                   appropriateness := app; total := tot |}.

Record ScoringResult : Type := {
  question_number : Z;
  score_breakdown : ScoreBreakdown;
  feedback : option pystr
}.

Record TranscriptionResponse : Type := {
  tr_question_number : Z;
  transcription : pystr;
  confidence : option Q
}.

(** [TranscriptionResponse(...)]: [transcription] must be a [str],
    [confidence] a [float] or [None]. *)
Definition new_TranscriptionResponse (question_number : Z)
    (transcription confidence : pyval) : result TranscriptionResponse :=
  match transcription with
  | PStr text =>
      match confidence with
      | PNone => Returned {| tr_question_number := question_number;
                             transcription := text; confidence := None |}
      | PFloat x => Returned {| tr_question_number := question_number;
                                transcription := text; confidence := Some x |}
      | _ => Raised (ValidationError "confidence")
      end
  | _ => Raised (ValidationError "transcription")
  end.

Record AudioUpload : Type := {
  au_question_number : Z;
  student_id : string
}.

(** The value of a member of [GradeEnum], a [str]. *)
Definition value (g : GradeEnum) : string :=
  match g with
  | NH => "NH" | IL => "IL" | IM => "IM" | IH => "IH" | AL => "AL"
  end.

End Schemas.

Import Schemas.

(** ** [services/scoring_service.py] *)

Module ScoringService.

(** A criterion classifier as [_score_] sees it: the outcome of
    "load the model if it is not loaded, then [predict(answer, question)]". *)
Definition classifier : Type := pystr -> pystr -> result Q.

(** [self]: the three classifiers ([__init__]). *)
Record t : Type := {
  task_completion_model : classifier;
  accuracy_model : classifier;
  appropriateness_model : classifier
}.

(** [self.grade_thresholds]: a dict literal, iterated in insertion order. *)
Definition grade_thresholds : list (GradeEnum * (Z * Z)) :=
  [ (NH, (0, 12)%Z); (IL, (13, 17)%Z); (IM, (18, 22)%Z);
    (IH, (23, 27)%Z); (AL, (28, 30)%Z) ].

(** [max(0.0, min(10.0, score))] *)
Definition clamp (score : Q) : Q := Py.max 0 (Py.min 10 score).

(** The body shared by the three [_score_] methods ([_score_task_completion], ...): the clamped prediction,
    or [5.0] when anything in the [try] raises. *)
Definition score_with (model : classifier) (answer_text question_text : pystr) : Q :=
  match model answer_text question_text with
  | Returned score => clamp score
  | Raised _ => 5
  end.

Definition _score_task_completion (self : t) (answer_text question_text : pystr) : Q :=
  score_with (task_completion_model self) answer_text question_text.

Definition _score_accuracy (self : t) (answer_text question_text : pystr) : Q :=
  score_with (accuracy_model self) answer_text question_text.

Definition _score_appropriateness (self : t) (answer_text question_text : pystr) : Q :=
  score_with (appropriateness_model self) answer_text question_text.

(** [score_single_answer]. The three [_score_] jobs share no state, so the
    order in which the executor runs them does not matter; [gather] returns
    their values in the order of the task list. *)
Definition score_single_answer (self : t) (answer_text question_text : pystr)
    (question_number : Z) : result ScoringResult :=
  let task_completion := _score_task_completion self answer_text question_text in
  let accuracy := _score_accuracy self answer_text question_text in
  let appropriateness := _score_appropriateness self answer_text question_text in
  let total := (task_completion + accuracy + appropriateness)%Q in
  score_breakdown ← new_ScoreBreakdown (round2 task_completion) (round2 accuracy)
                      (round2 appropriateness) (round2 total);
  Returned {| question_number := question_number;
              score_breakdown := score_breakdown;
              feedback := None |}.

(** One element of [answers_data]: a dict read at the keys ["answer_text"],
    ["question_text"] and ["question_number"]. *)
Record answer_data : Type := {
  answer_text : pystr;
  question_text : pystr;
  ad_question_number : Z
}.

(** The loop after [gather] with [return_exceptions=True]: a result that
    is an exception is logged and left out. *)
Fixpoint valid_results {A} (results : list (result A)) : list A :=
  match results with
  | [] => []
  | Returned r :: rest => r :: valid_results rest
  | Raised _ :: rest => valid_results rest
  end.

Definition score_multiple_answers (self : t) (answers_data : list answer_data)
    : result (list ScoringResult) :=
  let tasks :=
    (fun a => score_single_answer self (answer_text a) (question_text a)
                (ad_question_number a)) <$> answers_data in
  Returned (valid_results tasks).

(** The loop of [calculate_final_grade] over [grade_thresholds.items()]. *)
Fixpoint first_band (items : list (GradeEnum * (Z * Z))) (total_score : Q)
    : option GradeEnum :=
  match items with
  | [] => None
  | (grade, (min_score, max_score)) :: rest =>
      if Py.leb (inject_Z min_score) total_score
         && Py.leb total_score (inject_Z max_score)
      then Some grade
      else first_band rest total_score
  end.

Definition calculate_final_grade (total_score : Q) : GradeEnum :=
  match first_band grade_thresholds total_score with
  | Some grade => grade
  | None => NH
  end.

(** [get_grade_description]: the dict of descriptions and [dict.get] with
    a default. *)
Definition descriptions : gmap string pystr :=
  <["NH" := u "Novice High - 제한적이지만 일상적인 주제에 대해 간단한 의사소통 가능"]>
  (<["IL" := u "Intermediate Low - 익숙한 주제에 대해 기본적인 의사소통 가능"]>
  (<["IM" := u "Intermediate Mid - 다양한 주제에 대해 어느 정도 유창한 의사소통 가능"]>
  (<["IH" := u "Intermediate High - 복잡한 주제에 대해서도 효과적인 의사소통 가능"]>
  (<["AL" := u "Advanced Low - 추상적이고 전문적인 주제에 대해 능숙한 의사소통 가능"]> ∅)))).

Definition no_description : pystr := u "등급 정보 없음".

Definition get_grade_description (grade : string) : pystr :=
  default no_description (descriptions !! grade).

(** [validate_score], on a number (the [isinstance] test passes). *)
Definition validate_score (score : Q) (criterion : string) : bool :=
  if Py.ltb score 0 || Py.ltb 10 score then false else true.

(** [normalize_score]; nothing in its [try] raises on numbers. *)
Definition normalize_score (raw_score min_val max_val : Q) : Q :=
  let normalized := Py.max min_val (Py.min max_val raw_score) in
  round2 normalized.

End ScoringService.

(** ** [app.py], the grading route *)

Module LegacyApp.

(** The band chosen in [grading] from [total_average_score], the mean of the
    three criterion means on the 1 to 5 scale. *)
Definition grade_of_average (total_average_score : Q) : GradeEnum :=
  if Py.leb (9 # 2) total_average_score then AL
  else if Py.leb (7 # 2) total_average_score && Py.ltb total_average_score (9 # 2) then IH
  else if Py.leb (5 # 2) total_average_score && Py.ltb total_average_score (7 # 2) then IM
  else if Py.leb (3 # 2) total_average_score && Py.ltb total_average_score (5 # 2) then IL
  else NH.

End LegacyApp.

(** ** [services/feedback_service.py] *)

Module FeedbackService.

(** The characters [str.strip()] removes: those for which [str.isspace]
    holds. *)
Definition is_space (c : N) : bool :=
  ((9 <=? c) && (c <=? 13) || (28 <=? c) && (c <=? 32)
   || (c =? 133) || (c =? 160) || (c =? 5760)
   || (8192 <=? c) && (c <=? 8202)
   || (c =? 8232) || (c =? 8233) || (c =? 8239) || (c =? 8287)
   || (c =? 12288))%N.

Fixpoint lstrip (s : pystr) : pystr :=
  match s with
  | [] => []
  | c :: s' => if is_space c then lstrip s' else s
  end.

Fixpoint rstrip (s : pystr) : pystr :=
  match s with
  | [] => []
  | c :: s' =>
      match rstrip s' with
      | [] => if is_space c then [] else [c]
      | r => c :: r
      end
  end.

(** [s.strip()] *)
Definition strip (s : pystr) : pystr := rstrip (lstrip s).

(** [s.split(sep)] for a separator of one character. *)
Fixpoint split (sep : N) (s : pystr) : list pystr :=
  match s with
  | [] => [[]]
  | c :: s' =>
      if (c =? sep)%N then [] :: split sep s'
      else match split sep s' with
           | line :: lines => (c :: line) :: lines
           | [] => [[c]]
           end
  end.

(** [sep.join(lines)] *)
Fixpoint join (sep : pystr) (lines : list pystr) : pystr :=
  match lines with
  | [] => []
  | [line] => line
  | line :: rest => line ++ sep ++ join sep rest
  end.

(** The loop of [_clean_feedback] that fills [unique_lines]. *)
Fixpoint collect_unique (lines : list pystr) (unique_lines : list pystr) : list pystr :=
  match lines with
  | [] => unique_lines
  | line :: rest =>
      let line := strip line in
      if negb (bool_decide (line = [])) && negb (bool_decide (line ∈ unique_lines))
      then collect_unique rest (unique_lines ++ [line])
      else collect_unique rest unique_lines
  end.

Definition ellipsis : pystr := u "...".

Definition _clean_feedback (raw_feedback : pystr) : pystr :=
  let feedback := strip raw_feedback in
  let lines := split NL feedback in
  let unique_lines := collect_unique lines [] in
  let cleaned_feedback := join [NL] unique_lines in
  if (1000 <? length cleaned_feedback)%nat
  then take 1000 cleaned_feedback ++ ellipsis
  else cleaned_feedback.

(** [_get_score_level] *)
Definition _get_score_level (score : Q) : string :=
  if Py.leb 24 score then "excellent"
  else if Py.leb 18 score then "good"
  else if Py.leb 12 score then "average"
  else "needs_improvement".

Definition text_excellent : pystr :=
  u "우수한 답변입니다! 모든 평가 기준에서 높은 점수를 받았습니다." ++ [NL].
Definition text_good : pystr :=
  u "좋은 답변입니다. 몇 가지 부분에서 개선하면 더 좋을 것 같습니다." ++ [NL].
Definition text_average : pystr :=
  u "평균적인 답변입니다. 더 구체적이고 자세한 설명이 필요합니다." ++ [NL].
Definition text_needs_improvement : pystr :=
  u "답변에 더 많은 노력이 필요합니다. 질문에 더 직접적으로 답해보세요." ++ [NL].

Definition remark_task_completion : pystr :=
  u "• 질문의 요구사항을 더 완전히 답변해보세요." ++ [NL].
Definition remark_accuracy : pystr :=
  u "• 문법과 어휘 사용에 더 주의를 기울여보세요." ++ [NL].
Definition remark_appropriateness : pystr :=
  u "• 상황에 더 적절한 표현을 사용해보세요." ++ [NL].

(** [_get_fallback_feedback]. Nothing in its [try] raises on a
    [ScoreBreakdown] and an [int]. *)
Definition _get_fallback_feedback (scores : ScoreBreakdown) (question_number : Z) : pystr :=
  let score_level := _get_score_level (total scores) in
  let base_feedback :=
    u "질문 " ++ str_of_int question_number ++ u "번에 대한 답변 분석:" ++ [NL; NL] in
  let base_feedback :=
    if String.eqb score_level "excellent" then base_feedback ++ text_excellent
    else if String.eqb score_level "good" then base_feedback ++ text_good
    else if String.eqb score_level "average" then base_feedback ++ text_average
    else base_feedback ++ text_needs_improvement in
  let base_feedback :=
    if Py.ltb (task_completion scores) 6
    then base_feedback ++ remark_task_completion else base_feedback in
  let base_feedback :=
    if Py.ltb (accuracy scores) 6
    then base_feedback ++ remark_accuracy else base_feedback in
  let base_feedback :=
    if Py.ltb (appropriateness scores) 6
    then base_feedback ++ remark_appropriateness else base_feedback in
  base_feedback.

(** [_generate_feedback_sync]. Its argument is the outcome of "load the
    model if it is not loaded, then [llama_model.predict(prompt, 500)]": the
    prompt only feeds the model, whose sampled answer is an input here. *)
Definition _generate_feedback_sync (generation : result pystr) : result pystr :=
  feedback ← generation;
  Returned (_clean_feedback feedback).

(** [generate_individual_feedback]: every exception of the generation is
    caught and answered by the fallback text, so the coroutine returns. *)
Definition generate_individual_feedback (generation : result pystr)
    (answer_text question_text : pystr) (scores : ScoreBreakdown)
    (question_number : Z) : result pystr :=
  match _generate_feedback_sync generation with
  | Returned feedback => Returned feedback
  | Raised _ => Returned (_get_fallback_feedback scores question_number)
  end.

(** One element of [feedback_requests]: a dict read at the keys
    ["answer_text"], ["question_text"], ["scores"], ["question_number"]. *)
Record feedback_request : Type := {
  answer_text : pystr;
  question_text : pystr;
  scores : ScoreBreakdown;
  fr_question_number : Z
}.

(** The text written at position [i] for a task that ended in an exception. *)
Definition failure_placeholder (i : nat) : pystr :=
  u "피드백 생성에 실패했습니다. (질문 " ++ str_of_int (Z.of_nat i + 1) ++ u ")".

(** The loop over [enumerate(feedbacks)], from index [i] on. *)
Fixpoint valid_feedbacks (i : nat) (feedbacks : list (result pystr)) : list pystr :=
  match feedbacks with
  | [] => []
  | Raised _ :: rest => failure_placeholder i :: valid_feedbacks (S i) rest
  | Returned feedback :: rest => feedback :: valid_feedbacks (S i) rest
  end.

(** [generate_batch_feedback]. [generation i] is the outcome of the model
    call made by the task of request [i]; [gather] keeps the order of the
    task list whatever the order of completion. *)
Definition generate_batch_feedback (generation : nat -> result pystr)
    (feedback_requests : list feedback_request) : result (list pystr) :=
  let tasks :=
    imap (fun i request =>
            generate_individual_feedback (generation i) (answer_text request)
              (question_text request) (scores request) (fr_question_number request))
         feedback_requests in
  Returned (valid_feedbacks 0 tasks).




End FeedbackService.

(** ** [models/ml_models.py] *)

Module MLModels.

(** *** [str.lower] and [str.title] on the ASCII names of the criteria *)

Definition is_upper (c : ascii) : bool :=
  (65 <=? N_of_ascii c)%N && (N_of_ascii c <=? 90)%N.
Definition is_lower (c : ascii) : bool :=
  (97 <=? N_of_ascii c)%N && (N_of_ascii c <=? 122)%N.
Definition to_lower (c : ascii) : ascii :=
  if is_upper c then ascii_of_N (N_of_ascii c + 32) else c.
Definition to_upper (c : ascii) : ascii :=
  if is_lower c then ascii_of_N (N_of_ascii c - 32) else c.

Fixpoint lower (s : string) : string :=
  match s with
  | EmptyString => EmptyString
  | String c s' => String (to_lower c) (lower s')
  end.

Fixpoint title_from (after_letter : bool) (s : string) : string :=
  match s with
  | EmptyString => EmptyString
  | String c s' =>
      if is_upper c || is_lower c
      then String (if after_letter then to_lower c else to_upper c) (title_from true s')
      else String c (title_from false s')
  end.

Definition title (s : string) : string := title_from false s.

(** *** Model managers *)

Inductive model_class : Type :=
| WhisperModelManager
| RobertaScoringModelManager (model_path criterion : string)
| LlamaFeedbackModelManager.

(** The attributes of a [ModelManager]; [Some] stands for "is not None". *)
Record ModelManager : Type := {
  class : model_class;
  _model : option string;
  _tokenizer : option string;
  _processor : option string;
  _pipeline : option string
}.

(** [__init__] *)
Definition new (c : model_class) : ModelManager :=
  {| class := c; _model := None; _tokenizer := None;
     _processor := None; _pipeline := None |}.

(** [is_loaded]: [self._model is not None]. *)
Definition is_loaded (self : ModelManager) : bool :=
  match _model self with Some _ => true | None => false end.

Definition set_model (v : string) (self : ModelManager) : ModelManager :=
  {| class := class self; _model := Some v; _tokenizer := _tokenizer self;
     _processor := _processor self; _pipeline := _pipeline self |}.
Definition set_tokenizer (v : string) (self : ModelManager) : ModelManager :=
  {| class := class self; _model := _model self; _tokenizer := Some v;
     _processor := _processor self; _pipeline := _pipeline self |}.
Definition set_processor (v : string) (self : ModelManager) : ModelManager :=
  {| class := class self; _model := _model self; _tokenizer := _tokenizer self;
     _processor := Some v; _pipeline := _pipeline self |}.
Definition set_pipeline (v : string) (self : ModelManager) : ModelManager :=
  {| class := class self; _model := _model self; _tokenizer := _tokenizer self;
     _processor := _processor self; _pipeline := Some v |}.

(** What the outside does when asked: the hub, the disk, the device, the
    inference libraries. Each entry is the outcome of one call of the
    source. *)
Record world : Type := {
  whisper_from_pretrained : result unit;   (* AutoModelForSpeechSeq2Seq.from_pretrained *)
  whisper_to_device : result unit;         (* self._model.to(self.device).float() *)
  whisper_processor : result unit;         (* AutoProcessor.from_pretrained *)
  whisper_pipeline : result unit;          (* pipeline("automatic-speech-recognition", ...) *)
  asr : string -> result (gmap string pyval);  (* self._pipeline(audio_file_path) *)
  path_exists : string -> bool;            (* os.path.exists *)
  roberta_from_pretrained : string -> result unit;
  roberta_tokenizer : string -> result unit;
  roberta_to_device : string -> result unit;   (* self._model.to(device); self._model.eval() *)
  hub_login : result unit;                 (* login(token=...) *)
  llama_pipeline : result unit;            (* pipeline("text-generation", ...) *)
  make_upload_folder : result unit;        (* self.upload_folder.mkdir(...) *)
  write_file : string -> result unit       (* open(file_path, "wb") and f.write *)
}.

(** A method that mutates [self] and may raise: its outcome and the object
    as the call leaves it. What was assigned before an exception stays. *)
Definition method (A : Type) : Type := ModelManager -> result A * ModelManager.

Definition call {A} (outcome : result A) : method A := fun self => (outcome, self).
Definition assign (f : ModelManager -> ModelManager) : method unit :=
  fun self => (Returned (), f self).
Definition then_ {A B} (k : A -> method B) (m : method A) : method B :=
  fun self =>
    match m self with
    | (Returned a, self') => k a self'
    | (Raised e, self') => (Raised e, self')
    end.
#[export] Instance method_bind : MBind method := @then_.

Module Whisper.

(** [WhisperModelManager.load_model]; the [except] logs and raises again. *)
Definition load_model (w : world) : method unit :=
  call (whisper_from_pretrained w);;
  assign (set_model "openai/whisper-large-v3");;
  call (whisper_to_device w);;
  call (whisper_processor w);;
  assign (set_processor "openai/whisper-large-v3");;
  call (whisper_pipeline w);;
  assign (set_pipeline "automatic-speech-recognition").

(** [self._pipeline(audio_file_path)]: calling [None] is a [TypeError]. *)
Definition run_pipeline (w : world) (audio_file_path : string)
    : method (gmap string pyval) :=
  fun self =>
    match _pipeline self with
    | Some _ => (asr w audio_file_path, self)
    | None => (Raised (TypeError "'NoneType' object is not callable"), self)
    end.

(** [WhisperModelManager.predict] *)
Definition predict (w : world) (audio_file_path : string)
    : method (gmap string pyval) :=
  fun self =>
    ((if is_loaded self then call (Returned ()) else load_model w);;
     result ← run_pipeline w audio_file_path;
     text ← call (getitem result "text");
     call (Returned
       (<["transcription" := text]>
        (<["confidence" := getattr result "confidence" PNone]> ∅))))
    self.

End Whisper.

Module Roberta.

(** [RobertaScoringModelManager.load_model]: a missing model path is logged
    as a warning and the method returns, the model not loaded. *)
Definition load_model (w : world) (model_path : string) : method unit :=
  fun self =>
    if negb (path_exists w model_path) then (Returned (), self)
    else
      (call (roberta_from_pretrained w model_path);;
       assign (set_model model_path);;
       call (roberta_tokenizer w model_path);;
       assign (set_tokenizer model_path);;
       call (roberta_to_device w model_path))
      self.

End Roberta.

Module Llama.

(** [LlamaFeedbackModelManager.load_model]: it assigns [_pipeline] only. *)
Definition load_model (w : world) : method unit :=
  call (hub_login w);;
  call (llama_pipeline w);;
  assign (set_pipeline "text-generation").

End Llama.

(** [self.load_model()], by the class of [self]. *)
Definition load_model (w : world) : method unit :=
  fun self =>
    match class self with
    | WhisperModelManager => Whisper.load_model w self
    | RobertaScoringModelManager model_path _ => Roberta.load_model w model_path self
    | LlamaFeedbackModelManager => Llama.load_model w self
    end.

(** *** [ModelFactory] *)

Module ModelFactory.

(** A class method: it reads and writes [cls._instances], and what it wrote
    before an exception stays. A handle on a manager is its key there. *)
Definition M (A : Type) : Type :=
  gmap string ModelManager -> result A * gmap string ModelManager.

Definition ret {A} (a : A) : M A := fun _instances => (Returned a, _instances).
Definition seq {A B} (k : A -> M B) (c : M A) : M B :=
  fun _instances =>
    match c _instances with
    | (Returned a, _instances') => k a _instances'
    | (Raised e, _instances') => (Raised e, _instances')
    end.
#[export] Instance M_bind : MBind M := @seq.

(** A call that leaves the registry alone. *)
Definition lift {A} (outcome : result A) : M A :=
  fun _instances => (outcome, _instances).

(** The singleton of [key], made by [make] at the first request. *)
Definition get_instance (key : string) (make : model_class) : M string :=
  fun _instances =>
    match _instances !! key with
    | Some _ => (Returned key, _instances)
    | None => (Returned key, <[key := new make]> _instances)
    end.

Definition get_whisper_model : M string :=
  get_instance "whisper" WhisperModelManager.

Definition get_roberta_model (criterion : string) : M string :=
  let key := ("roberta_" +:+ criterion)%string in
  let model_path := ("./model/" +:+ title criterion)%string in
  get_instance key (RobertaScoringModelManager model_path criterion).

Definition get_llama_model : M string :=
  get_instance "llama" LlamaFeedbackModelManager.

(** A method call on the manager behind a handle: the object in the
    registry is the one mutated. *)
Definition on {A} (handle : string) (m : method A) : M A :=
  fun _instances =>
    match _instances !! handle with
    | Some self =>
        let '(outcome, self') := m self in
        (outcome, <[handle := self']> _instances)
    | None => (Raised (KeyError handle), _instances)
    end.

(** The [for criterion in criteria] loop of [load_all_models]. *)
Fixpoint load_roberta_models (w : world) (criteria : list string) : M unit :=
  match criteria with
  | [] => ret ()
  | criterion :: rest =>
      roberta_model ← get_roberta_model (lower criterion);
      on roberta_model (load_model w);;
      load_roberta_models w rest
  end.

(** [load_all_models]; the [except] logs and raises again. *)
Definition load_all_models (w : world) : M unit :=
  whisper_model ← get_whisper_model;
  on whisper_model (load_model w);;
  load_roberta_models w ["Task_Completion"; "Accuracy"; "Appropriateness"];;
  llama_model ← get_llama_model;
  on llama_model (load_model w).

End ModelFactory.

(** *** [RobertaScoringModelManager.predict] *)

(** [f"{question} [SEP] {text}" if question else text] *)
Definition input_text (text question : pystr) : pystr :=
  if bool_decide (question = []) then text else question ++ u " [SEP] " ++ text.

(** The [try] of [predict]: the tokenizer is called, then the model; calling
    [None] is a [TypeError]. [infer model_path input] is the outcome of the
    tokenizer and of the forward pass of the artifact loaded from
    [model_path], the logit as a number; the score is
    [max(0, min(10, score))]. *)
Definition classify (infer : string -> pystr -> result Q) (model_path : string)
    (text question : pystr) : method Q :=
  fun self =>
    match _tokenizer self, _model self with
    | Some _, Some _ =>
        (score ← infer model_path (input_text text question);
         Returned (Py.max 0 (Py.min 10 score)), self)
    | _, _ => (Raised (TypeError "'NoneType' object is not callable"), self)
    end.

Definition roberta_predict (w : world) (infer : string -> pystr -> result Q)
    (model_path : string) (text question : pystr) : method Q :=
  fun self =>
    ((if is_loaded self then call (Returned ()) else Roberta.load_model w model_path);;
     classify infer model_path text question) self.

(** The [try] of a [_score_] method of the scoring service on a manager:
    load if not loaded, then [predict(answer_text, question_text)]. *)
Definition scoring_call (w : world) (infer : string -> pystr -> result Q)
    (model_path : string) (answer_text question_text : pystr) : method Q :=
  fun self =>
    ((if is_loaded self then call (Returned ()) else Roberta.load_model w model_path);;
     roberta_predict w infer model_path answer_text question_text) self.

End MLModels.

(** ** [services/audio_service.py] *)

Module AudioService.

Import MLModels MLModels.ModelFactory.

(** [self]: the handle on the Whisper manager taken in [__init__], and the
    settings. *)
Record t : Type := {
  whisper_model : string;
  upload_folder : string;
  max_file_size : N
}.

(** [__init__], with the defaults of [config/settings.py]. *)
Definition new : M t :=
  whisper_model ← get_whisper_model;
  ret {| whisper_model := whisper_model; upload_folder := "records";
         max_file_size := 50 * 1024 * 1024 |}.

(** [self.upload_folder / f"{student_id}_q{question_number}.{file_extension}"] *)
Definition get_file_path (self : t) (student_id : string) (question_number : Z)
    (file_extension : string) : string :=
  (upload_folder self +:+ "/" +:+ student_id +:+ "_q"
   +:+ NilZero.string_of_int (Z.to_int question_number)
   +:+ "." +:+ file_extension)%string.

(** [save_audio_file] *)
Definition save_audio_file (w : world) (self : t) (file_content : list Byte.byte)
    (student_id : string) (question_number : Z) : result string :=
  _ ← make_upload_folder w;
  let file_path := get_file_path self student_id question_number "webm" in
  if (max_file_size self <? N.of_nat (length file_content))%N
  then Raised (ValueError "File size exceeds maximum allowed size")
  else
    _ ← write_file w file_path;
    Returned file_path.

(** [_transcribe_sync] *)
Definition _transcribe_sync (w : world) (self : t) (file_path : string)
    : M (gmap string pyval) :=
  on (whisper_model self) (fun model =>
    ((if is_loaded model then call (Returned ()) else load_model w);;
     Whisper.predict w file_path) model).

(** [transcribe_audio] *)
Definition transcribe_audio (w : world) (self : t) (file_path : string)
    : M (gmap string pyval) :=
  if negb (path_exists w file_path)
  then lift (Raised (FileNotFoundError file_path))
  else _transcribe_sync w self file_path.

(** [process_audio_upload] *)
Definition process_audio_upload (w : world) (self : t) (file_content : list Byte.byte)
    (audio_data : AudioUpload) : M TranscriptionResponse :=
  file_path ← lift (save_audio_file w self file_content (student_id audio_data)
                      (au_question_number audio_data));
  transcription_result ← transcribe_audio w self file_path;
  lift (transcription ← getitem transcription_result "transcription";
        new_TranscriptionResponse (au_question_number audio_data) transcription
          (get transcription_result "confidence")).

End AudioService.

(** ** [services/survey_service.py] and [repositories/question_repo.py] *)

Module SurveyService.

(** A row of the [question] table, read at [question_text] and [property]
    (both columns are not nullable). *)
Record Question : Type := {
  q_question_text : pystr;
  q_property : pystr
}.

(** [QuestionResponse] of [models/schemas.py]. *)
Record QuestionResponse : Type := {
  qr_question_number : Z;
  qr_question_text : pystr;
  qr_property : option pystr
}.

(** The dict [_process_survey_answers] builds, read at ["occupation"],
    ["living_situation"] and ["hobbies"]. *)
Record survey_data : Type := {
  occupation : option pystr;
  living_situation : option pystr;
  hobbies : list pystr
}.

(** [needle in s] on strings. *)
Fixpoint starts_with (s needle : pystr) : bool :=
  match needle, s with
  | [], _ => true
  | _ :: _, [] => false
  | a :: needle', b :: s' => (a =? b)%N && starts_with s' needle'
  end.

Fixpoint contains (s needle : pystr) : bool :=
  starts_with s needle ||
  match s with
  | [] => false
  | _ :: s' => contains s' needle
  end.

Section WithStore.

(** [question_repo.get_by_property]: the outcome of the query, by property
    name; and [str.lower], which only shapes the name asked for a hobby. *)
Variable get_by_property : pystr -> result (list Question).
Variable lower : pystr -> pystr.

(** The questions each part of [_generate_personalized_questions] appends
    to [selected_questions]. *)
Definition occupation_questions (occupation : option pystr) : result (list Question) :=
  if bool_decide (occupation = Some (u "사업자/직장인")) then
    work_questions ← get_by_property (u "work"); Returned (take 5 work_questions)
  else if bool_decide (occupation = Some (u "학생")) then
    school_questions ← get_by_property (u "school"); Returned (take 5 school_questions)
  else if bool_decide (occupation = Some (u "취업준비생")) then
    jobseeker_questions ← get_by_property (u "jobseeker");
    Returned (take 5 jobseeker_questions)
  else Returned [].

(** [in] on [None] is a [TypeError]. *)
Definition living_questions (living_situation : option pystr) : result (list Question) :=
  match living_situation with
  | None => Raised (TypeError "argument of type 'NoneType' is not iterable")
  | Some living =>
      if contains living (u "홀로 거주") then
        living_questions ← get_by_property (u "living_alone");
        Returned (take 5 living_questions)
      else if contains living (u "친구나 룸메이트") then
        roommate_questions ← get_by_property (u "living_roommates");
        Returned (take 5 roommate_questions)
      else if contains living (u "가족과 함께") then
        family_questions ← get_by_property (u "living_family");
        Returned (take 5 family_questions)
      else Returned []
  end.

(** The loop [for hobby in hobbies[:2]]. *)
Fixpoint hobby_loop (hobbies : list pystr) (hobby_questions : list Question)
    : result (list Question) :=
  match hobbies with
  | [] => Returned hobby_questions
  | hobby :: rest =>
      hobby_q ← get_by_property (u "hobby_" ++ lower hobby);
      hobby_loop rest (hobby_questions ++ take 2 hobby_q)
  end.

Definition hobby_questions (hobbies : list pystr) : result (list Question) :=
  match hobbies with
  | [] => Returned []
  | _ :: _ =>
      hobby_questions ← hobby_loop (take 2 hobbies) [];
      Returned (take 5 hobby_questions)
  end.

(** [selected_questions] when the selection is over. *)
Definition select_questions (survey : survey_data) : result (list Question) :=
  selected_questions ← occupation_questions (occupation survey);
  living ← living_questions (living_situation survey);
  let selected_questions := selected_questions ++ living in
  hobby ← hobby_questions (hobbies survey);
  let selected_questions := selected_questions ++ hobby in
  if (length selected_questions <? 15)%nat then
    general_questions ← get_by_property (u "general");
    let remaining := (15 - length selected_questions)%nat in
    Returned (selected_questions ++ take remaining general_questions)
  else Returned selected_questions.

(** [enumerate(selected_questions[:15], 1)] turned into responses. *)
Definition to_responses (selected_questions : list Question) : list QuestionResponse :=
  imap (fun i question =>
          {| qr_question_number := Z.of_nat i + 1;
             qr_question_text := q_question_text question;
             qr_property := Some (q_property question) |})
       (take 15 selected_questions).

Definition placeholder_question (question_number : Z) : QuestionResponse :=
  {| qr_question_number := question_number;
     qr_question_text := u "Tell me about yourself and your daily routine.";
     qr_property := Some (u "general") |}.

(** The loop [while len(question_responses) < 15]; it ends within fifteen
    rounds, the fuel given. *)
Fixpoint fill (fuel : nat) (question_responses : list QuestionResponse)
    : list QuestionResponse :=
  match fuel with
  | O => question_responses
  | S fuel' =>
      if (length question_responses <? 15)%nat
      then fill fuel'
             (question_responses
              ++ [placeholder_question (Z.of_nat (length question_responses) + 1)])
      else question_responses
  end.

(** [_get_default_questions] *)
Definition default_questions : list pystr :=
  [ u "Tell me about yourself."; u "Describe your daily routine.";
    u "What do you do in your free time?"; u "Tell me about your family.";
    u "Describe your hometown."; u "What are your hobbies?";
    u "Tell me about your job or studies."; u "Describe a typical weekend for you.";
    u "What kind of music do you like?"; u "Tell me about your favorite restaurant.";
    u "Describe your home."; u "What do you like to do when you travel?";
    u "Tell me about your friends."; u "Describe your favorite movie.";
    u "What are your future plans?" ].

Definition _get_default_questions : list QuestionResponse :=
  imap (fun i question_text =>
          {| qr_question_number := Z.of_nat i + 1;
             qr_question_text := question_text;
             qr_property := Some (u "general") |})
       default_questions.

(** [_generate_personalized_questions]: any exception of the selection is
    answered with the default questions. *)
Definition _generate_personalized_questions (survey : survey_data)
    : result (list QuestionResponse) :=
  match select_questions survey with
  | Returned selected_questions =>
      Returned (fill 15 (to_responses selected_questions))
  | Raised _ => Returned _get_default_questions
  end.

(** [QuestionRepository.get_random_questions_by_survey]: a string or a list
    is true when it is not empty; an exception of a query is raised again. *)
Definition truthy (s : option pystr) : bool :=
  match s with
  | Some (_ :: _) => true
  | _ => false
  end.

Definition get_random_questions_by_survey (survey : survey_data)
    : result (list Question) :=
  selected_questions ←
    (if truthy (occupation survey) then
       occupation_questions ← get_by_property (u "occupation");
       Returned (take 5 occupation_questions)
     else Returned []);
  selected_questions ←
    (if truthy (living_situation survey) then
       living_questions ← get_by_property (u "living");
       Returned (selected_questions ++ take 5 living_questions)
     else Returned selected_questions);
  selected_questions ←
    (match hobbies survey with
     | _ :: _ =>
         hobby_questions ← get_by_property (u "hobby");
         Returned (selected_questions ++ take 5 hobby_questions)
     | [] => Returned selected_questions
     end);
  selected_questions ←
    (if (length selected_questions <? 15)%nat then
       general_questions ← get_by_property (u "general");
       Returned (selected_questions
                 ++ take (15 - length selected_questions) general_questions)
     else Returned selected_questions);
  Returned (take 15 selected_questions).

End WithStore.

End SurveyService.

(** ** [api/deps.py] *)

Module Deps.

(** What a dependency hands to the route: a value, or the [HTTPException]
    it raised. *)
Inductive http_result (A : Type) : Type :=
| Ok (a : A)
| HTTPException (status_code : Z) (detail : string).
Arguments Ok {A} a.
Arguments HTTPException {A} status_code detail.

(** [validate_question_number] *)
Definition validate_question_number (question_number : Z) : http_result Z :=
  if negb ((1 <=? question_number)%Z && (question_number <=? 15)%Z)
  then HTTPException 400 "Question number must be between 1 and 15"
  else Ok question_number.

(** [validate_student_id] *)
Definition validate_student_id (student_id : pystr) : http_result pystr :=
  if bool_decide (student_id = [])
     || (length (FeedbackService.strip student_id) <? 1)%nat
  then HTTPException 400 "Student ID is required"
  else Ok (FeedbackService.strip student_id).

(** [verify_student_access] *)
Definition verify_student_access (current_student_id requested_student_id : pystr) : bool :=
  bool_decide (current_student_id = requested_student_id).

(** [SessionUser]: [self._users], a dict from session id to user data. *)
Section SessionUser.

Variable user_data : Type.

Definition set_user (_users : gmap pystr user_data) (session_id : pystr)
    (data : user_data) : gmap pystr user_data :=
  <[session_id := data]> _users.

Definition get_user (_users : gmap pystr user_data) (session_id : pystr)
    : option user_data :=
  _users !! session_id.

(** [self._users.pop(session_id, None)] *)
Definition remove_user (_users : gmap pystr user_data) (session_id : pystr)
    : gmap pystr user_data :=
  delete session_id _users.

(** [get_session_user]: no session id, or an empty one, is no user. *)
Definition get_session_user (_users : gmap pystr user_data)
    (session_id : option pystr) : option user_data :=
  match session_id with
  | None | Some [] => None
  | Some session_id => get_user _users session_id
  end.

End SessionUser.

End Deps.

(* ===================================================================== *)
(** * Part II: properties                                                 *)
(* ===================================================================== *)

(** ** Numbers *)

Section Numbers.

Lemma leb_true (x y : Q) : Py.leb x y = true <-> (x <= y)%Q.
Proof. apply Qle_bool_iff. Qed.

Lemma leb_false (x y : Q) : Py.leb x y = false <-> (y < x)%Q.
Proof.
  unfold Py.leb. split; intros H.
  - apply Qnot_le_lt. intros Hle. apply Qle_bool_iff in Hle. congruence.
  - destruct (Qle_bool x y) eqn:E; [|reflexivity].
    apply Qle_bool_iff in E. exfalso. eapply Qlt_not_le; eauto.
Qed.

Lemma ltb_true (x y : Q) : Py.ltb x y = true <-> (x < y)%Q.
Proof.
  unfold Py.ltb. rewrite negb_true_iff. apply leb_false.
Qed.

Lemma ltb_false (x y : Q) : Py.ltb x y = false <-> (y <= x)%Q.
Proof.
  unfold Py.ltb. rewrite negb_false_iff. apply leb_true.
Qed.

End Numbers.

(** Turns the boolean comparisons in scope into facts about rationals. *)
Ltac cmp_to_prop :=
  repeat match goal with
  | H : Py.leb _ _ = true |- _ => apply leb_true in H
  | H : Py.leb _ _ = false |- _ => apply leb_false in H
  | H : Py.ltb _ _ = true |- _ => apply ltb_true in H
  | H : Py.ltb _ _ = false |- _ => apply ltb_false in H
  end.

(** Splits on the next comparison the goal branches on. *)
Ltac split_cmp :=
  match goal with
  | |- context [Py.leb ?a ?b] =>
      let E := fresh "E" in destruct (Py.leb a b) eqn:E
  | |- context [Py.ltb ?a ?b] =>
      let E := fresh "E" in destruct (Py.ltb a b) eqn:E
  end.

(** ** Grade banding *)

Section Grading.

Import ScoringService.

(** The rank of a band in the order NH < IL < IM < IH < AL. *)
Definition rank (g : GradeEnum) : nat :=
  match g with NH => 0 | IL => 1 | IM => 2 | IH => 3 | AL => 4 end.

(** The banding as the specification words it: half-open bands, each cut
    point in the higher band. *)
Definition half_open_band (t : Q) : GradeEnum :=
  if Py.ltb t 12 then NH
  else if Py.ltb t 18 then IL
  else if Py.ltb t 23 then IM
  else if Py.ltb t 28 then IH
  else AL.

Lemma calculate_final_grade_unfold (t : Q) :
  calculate_final_grade t =
    if Py.leb 0 t && Py.leb t 12 then NH
    else if Py.leb 13 t && Py.leb t 17 then IL
    else if Py.leb 18 t && Py.leb t 22 then IM
    else if Py.leb 23 t && Py.leb t 27 then IH
    else if Py.leb 28 t && Py.leb t 30 then AL
    else NH.
Proof.
  unfold calculate_final_grade, grade_thresholds, first_band.
  change (inject_Z 0) with 0%Q. change (inject_Z 12) with 12%Q.
  change (inject_Z 13) with 13%Q. change (inject_Z 17) with 17%Q.
  change (inject_Z 18) with 18%Q. change (inject_Z 22) with 22%Q.
  change (inject_Z 23) with 23%Q. change (inject_Z 27) with 27%Q.
  change (inject_Z 28) with 28%Q. change (inject_Z 30) with 30%Q.
  repeat (split_cmp; cbn [andb]; try reflexivity).
Qed.

(** C1 (as the code has it). The bands of [calculate_final_grade] are the
    closed ranges of [grade_thresholds]: a total of at most 12 (and so every
    total below 12, negative ones included) is NH, 13 to 17 is IL, 18 to 22
    is IM, 23 to 27 is IH and 28 to 30 is AL. The cut point 12 is in NH; the
    cut points 18, 23 and 28 are in the higher band. *)
Theorem C1_closed_bands (t : Q) :
  ((t <= 12)%Q -> calculate_final_grade t = NH) /\
  ((13 <= t <= 17)%Q -> calculate_final_grade t = IL) /\
  ((18 <= t <= 22)%Q -> calculate_final_grade t = IM) /\
  ((23 <= t <= 27)%Q -> calculate_final_grade t = IH) /\
  ((28 <= t <= 30)%Q -> calculate_final_grade t = AL).
Proof.
  rewrite calculate_final_grade_unfold.
  repeat split; intros H;
    repeat (split_cmp; cbn [andb]; try reflexivity); cmp_to_prop; lra.
Qed.

(** C1 fails as stated: the total 12 is graded NH, where the half-open
    bands of the specification give IL. *)
Lemma C1_boundary_12 :
  (0 <= 12 <= 30)%Q /\
  calculate_final_grade 12 = NH /\ half_open_band 12 = IL /\
  calculate_final_grade 12 <> half_open_band 12.
Proof.
  split; [lra|]. repeat split; try reflexivity. vm_compute. discriminate.
Qed.

(** Totality: the banding returns exactly one band for every total. *)
Lemma grade_total (t : Q) : exists g, calculate_final_grade t = g /\
  forall g', calculate_final_grade t = g' -> g' = g.
Proof.
  exists (calculate_final_grade t). split; [reflexivity|]. intros g' H. now symmetry.
Qed.

(** C2 fails on the code: 13 is graded IL, and the larger total 17.5, which
    lies between the ranges of IL and IM, falls through to the default NH. *)
Theorem C2_band_drops_between_ranges :
  (13 <= 35 # 2)%Q /\
  calculate_final_grade 13 = IL /\ calculate_final_grade (35 # 2) = NH /\
  (rank (calculate_final_grade (35 # 2)) < rank (calculate_final_grade 13))%nat.
Proof.
  split; [unfold Qle; cbn; lia|]. vm_compute. repeat split; lia.
Qed.

(** Scenarios A, B and C of the specification. *)
Example scenario_A : calculate_final_grade (9 + 8 + 9) = IH.
Proof. reflexivity. Qed.

Example scenario_B : calculate_final_grade 30 = AL.
Proof. reflexivity. Qed.

Example scenario_C : calculate_final_grade 0 = NH.
Proof. reflexivity. Qed.

(** On whole-number totals from 0 to 30 the code agrees with the half-open
    bands except at 12. *)
Lemma grade_on_integers (n : Z) :
  (0 <= n <= 30)%Z -> n <> 12%Z ->
  calculate_final_grade (inject_Z n) = half_open_band (inject_Z n).
Proof.
  intros Hn Hne.
  assert (Hcases : exists k : nat, n = Z.of_nat k /\ (k <= 30)%nat).
  { exists (Z.to_nat n). split; lia. }
  destruct Hcases as [k [-> Hk]].
  do 31 (destruct k as [|k]; [try (vm_compute; reflexivity); lia|]).
  lia.
Qed.

End Grading.

(** ** Rounding and clamping *)

Section Rounding.

Import ScoringService.


(** Rounding never crosses an integer. *)
Lemma round_half_even_between (a b : Z) (q : Q) :
  (inject_Z a <= q <= inject_Z b)%Q ->
  (a <= round_half_even q <= b)%Z.
Proof.
  intros [Ha Hb].
  assert (Hfa : (a <= Qfloor q)%Z).
  { rewrite <- (Qfloor_Z a). now apply Qfloor_resp_le. }
  assert (Hfb : (Qfloor q <= b)%Z).
  { rewrite <- (Qfloor_Z b). now apply Qfloor_resp_le. }
  pose proof (Qfloor_le q) as Hlo.
  unfold round_half_even.
  destruct (Z.eq_dec (Qfloor q) b) as [Heq|Hne].
  - assert (Hq : (q - inject_Z (Qfloor q) <= 0)%Q) by (rewrite Heq; lra).
    destruct (Qcompare_spec (q - inject_Z (Qfloor q)) (1 # 2)) as [He|Hl|Hg];
      try lra. lia.
  - destruct (Qcompare_spec (q - inject_Z (Qfloor q)) (1 # 2)) as [He|Hl|Hg];
      try destruct (Z.even (Qfloor q)); lia.
Qed.

Lemma Qmake_100 (z : Z) : (z # 100 == inject_Z z * (1 # 100))%Q.
Proof.
  unfold Qeq, Qmult, inject_Z. cbn. lia.
Qed.


(** [round(x, 2)] stays between whole-number bounds of [x]. *)
Lemma round2_between (a b : Z) (x : Q) :
  (inject_Z a <= x <= inject_Z b)%Q ->
  (inject_Z a <= round2 x <= inject_Z b)%Q.
Proof.
  intros [Ha Hb].
  assert (H : (a * 100 <= round_half_even (x * 100) <= b * 100)%Z).
  { apply round_half_even_between. rewrite !inject_Z_mult.
    change (inject_Z 100) with 100%Q. split; nra. }
  unfold round2. rewrite Qmake_100.
  destruct H as [H1 H2].
  rewrite Zle_Qle in H1, H2.
  rewrite inject_Z_mult in H1, H2. change (inject_Z 100) with 100%Q in H1, H2.
  set (r := inject_Z (round_half_even (x * 100))) in *.
  split; lra.
Qed.

(** A number that has two decimals is its own rounding. *)
Lemma round2_of_hundredths (k : Z) : round2 (k # 100) = k # 100.
Proof.
  unfold round2. f_equal.
  assert (Hq : ((k # 100) * 100 == inject_Z k)%Q).
  { unfold Qeq, Qmult, inject_Z. cbn. lia. }
  unfold round_half_even.
  rewrite (Qfloor_comp _ _ Hq), Qfloor_Z.
  assert (Hc : Qcompare ((k # 100) * 100 - inject_Z k)%Q (1 # 2) = Lt).
  { rewrite <- Qlt_alt, Hq. set (r := inject_Z k). lra. }
  now rewrite Hc.
Qed.

(** The clamp of [_score_]: into the range 0 to 10, the identity inside it
    and the nearer bound outside. *)
Lemma clamp_range (s : Q) : (0 <= clamp s <= 10)%Q.
Proof.
  unfold clamp, Py.min. split_cmp; unfold Py.max; split_cmp; cmp_to_prop; lra.
Qed.

Lemma clamp_spec (s : Q) :
  ((0 <= s <= 10)%Q -> clamp s == s) /\
  ((s < 0)%Q -> clamp s == 0) /\
  ((10 < s)%Q -> clamp s == 10).
Proof.
  unfold clamp, Py.min.
  repeat split; intros H; split_cmp; unfold Py.max; split_cmp; cmp_to_prop;
    try reflexivity; lra.
Qed.

Lemma score_with_range (m : classifier) (a q : pystr) :
  (0 <= score_with m a q <= 10)%Q.
Proof.
  unfold score_with. destruct (m a q); [apply clamp_range | lra].
Qed.

End Rounding.

(** ** Scoring one answer *)

Section Scoring.

Import ScoringService.

(** The three criteria, to speak of "the criterion that failed". *)
Inductive Criterion : Type := TaskCompletion | Accuracy | Appropriateness.

#[local] Instance Criterion_eq_dec : EqDecision Criterion.
Proof. solve_decision. Defined.

Definition model_of (self : ScoringService.t) (c : Criterion) : classifier :=
  match c with
  | TaskCompletion => task_completion_model self
  | Accuracy => accuracy_model self
  | Appropriateness => appropriateness_model self
  end.

Definition stored (c : Criterion) (b : ScoreBreakdown) : Q :=
  match c with
  | TaskCompletion => task_completion b
  | Accuracy => accuracy b
  | Appropriateness => appropriateness b
  end.


(** The breakdown [score_single_answer] stores for clamped scores [x y z]. *)
Definition breakdown_of (x y z : Q) : ScoreBreakdown :=
  {| task_completion := round2 x; accuracy := round2 y;
     appropriateness := round2 z; total := round2 (x + y + z) |}.

Lemma in_range_true (lo hi x : Q) :
  (lo <= x <= hi)%Q -> in_range lo hi x = true.
Proof.
  intros [H1 H2]. unfold in_range.
  apply andb_true_iff. split; now apply leb_true.
Qed.

(** Validation accepts the rounded scores of any three values in range. *)
Lemma new_ScoreBreakdown_accepts (x y z : Q) :
  (0 <= x <= 10)%Q -> (0 <= y <= 10)%Q -> (0 <= z <= 10)%Q ->
  new_ScoreBreakdown (round2 x) (round2 y) (round2 z) (round2 (x + y + z))
  = Returned (breakdown_of x y z).
Proof.
  intros Hx Hy Hz. unfold new_ScoreBreakdown.
  rewrite (in_range_true 0 10 (round2 x)) by (apply (round2_between 0 10); exact Hx).
  rewrite (in_range_true 0 10 (round2 y)) by (apply (round2_between 0 10); exact Hy).
  rewrite (in_range_true 0 10 (round2 z)) by (apply (round2_between 0 10); exact Hz).
  rewrite (in_range_true 0 30 (round2 (x + y + z))).
  - reflexivity.
  - apply (round2_between 0 30). change (inject_Z 0) with 0%Q.
    change (inject_Z 30) with 30%Q. lra.
Qed.

(** [score_single_answer] always returns, whatever the classifiers do. *)
Lemma score_single_answer_returns (self : ScoringService.t) (a q : pystr) (n : Z) :
  score_single_answer self a q n =
  Returned {| question_number := n;
              score_breakdown :=
                breakdown_of (_score_task_completion self a q)
                             (_score_accuracy self a q)
                             (_score_appropriateness self a q);
              feedback := None |}.
Proof.
  unfold score_single_answer. cbv zeta.
  rewrite new_ScoreBreakdown_accepts; [reflexivity | apply score_with_range ..].
Qed.


(** When the three clamped scores have at most two decimals, nothing is
    lost: the stored total is the sum of the stored scores. *)
Lemma total_exact_on_hundredths (i j k : Z) :
  (total (breakdown_of (i # 100) (j # 100) (k # 100)) ==
   task_completion (breakdown_of (i # 100) (j # 100) (k # 100))
   + accuracy (breakdown_of (i # 100) (j # 100) (k # 100))
   + appropriateness (breakdown_of (i # 100) (j # 100) (k # 100)))%Q.
Proof.
  unfold breakdown_of.
  cbn [total task_completion accuracy appropriateness].
  rewrite !round2_of_hundredths.
  assert (Hs : ((i # 100) + (j # 100) + (k # 100) == (i + j + k) # 100)%Q).
  { unfold Qeq, Qplus. cbn. lia. }
  assert (Hr : round2 ((i # 100) + (j # 100) + (k # 100)) = round2 ((i + j + k) # 100)).
  { unfold round2, round_half_even. f_equal.
    assert (Hm : (((i # 100) + (j # 100) + (k # 100)) * 100
                  == ((i + j + k) # 100) * 100)%Q) by (rewrite Hs; reflexivity).
    rewrite (Qfloor_comp _ _ Hm).
    now rewrite (Qcompare_comp _ _ (Qminus_comp _ _ Hm _ _ (Qeq_refl _)) _ _ (Qeq_refl _)). }
  rewrite Hr, round2_of_hundredths. symmetry. exact Hs.
Qed.



Lemma score_of_failure (m : classifier) (a q : pystr) (e : exn) :
  m a q = Raised e -> score_with m a q = 5%Q.
Proof. intros H. unfold score_with. now rewrite H. Qed.

Lemma score_of_success (m : classifier) (a q : pystr) (raw : Q) :
  m a q = Returned raw -> score_with m a q = clamp raw.
Proof. intros H. unfold score_with. now rewrite H. Qed.

Lemma stored_breakdown (self : ScoringService.t) (a q : pystr) (c : Criterion) :
  stored c (breakdown_of (_score_task_completion self a q)
                         (_score_accuracy self a q)
                         (_score_appropriateness self a q))
  = round2 (score_with (model_of self c) a q).
Proof. destruct c; reflexivity. Qed.


(** Scenario D: the accuracy classifier raises, the other two answer 7.25
    and 12 (out of range, clamped to 10). *)
Definition svc_accuracy_down : ScoringService.t :=
  {| task_completion_model := fun _ _ => Returned (29 # 4);
     accuracy_model := fun _ _ => Raised (ModelError "classifier unavailable");
     appropriateness_model := fun _ _ => Returned 12%Q |}.


(** ** Scoring a batch *)

Lemma valid_results_all_returned {A B} (f : A -> B) (l : list A) :
  valid_results ((fun a => Returned (f a)) <$> l) = f <$> l.
Proof.
  induction l as [|a l IH]; [reflexivity|].
  cbn. now rewrite IH.
Qed.

(** The result [score_single_answer] builds for one element of the batch. *)
Definition result_for (self : ScoringService.t) (d : answer_data) : ScoringResult :=
  {| question_number := ad_question_number d;
     score_breakdown :=
       breakdown_of (_score_task_completion self (answer_text d) (question_text d))
                    (_score_accuracy self (answer_text d) (question_text d))
                    (_score_appropriateness self (answer_text d) (question_text d));
     feedback := None |}.

Lemma score_multiple_answers_map (self : ScoringService.t) (answers_data : list answer_data) :
  score_multiple_answers self answers_data = Returned (result_for self <$> answers_data).
Proof.
  unfold score_multiple_answers. cbv zeta. f_equal.
  rewrite (list_fmap_ext _ (fun d => Returned (result_for self d)) answers_data).
  - apply valid_results_all_returned.
  - intros i d _. apply score_single_answer_returns.
Qed.

(** C9. [score_multiple_answers] returns one result per answer, in the order
    of the answers: no call of [score_single_answer] raises, whatever the
    classifiers do, so the filter on exceptions drops nothing. The result at
    position [i] is the one [score_single_answer] returns for answer [i]; a
    criterion whose classifier failed is scored 5.0 there. *)
Theorem C9_one_result_per_answer (self : ScoringService.t) (answers_data : list answer_data) :
  exists rs, score_multiple_answers self answers_data = Returned rs /\
    length rs = length answers_data /\
    forall (i : nat) (d : answer_data), answers_data !! i = Some d ->
      exists r, rs !! i = Some r /\
        score_single_answer self (answer_text d) (question_text d)
          (ad_question_number d) = Returned r /\
        question_number r = ad_question_number d /\
        forall c e, model_of self c (answer_text d) (question_text d) = Raised e ->
          (stored c (score_breakdown r) == 5)%Q.
Proof.
  exists (result_for self <$> answers_data).
  split; [apply score_multiple_answers_map|].
  split; [apply length_fmap|].
  intros i d Hd. exists (result_for self d).
  split; [rewrite list_lookup_fmap, Hd; reflexivity|].
  split; [apply score_single_answer_returns|].
  split; [reflexivity|].
  intros c e Hc. unfold result_for. cbn [score_breakdown].
  rewrite stored_breakdown, (score_of_failure _ _ _ _ Hc).
  vm_compute. reflexivity.
Qed.

(** A report of fifteen answers has fifteen scored slots. *)
Corollary fifteen_slots (self : ScoringService.t) (answers_data : list answer_data) :
  length answers_data = 15%nat ->
  exists rs, score_multiple_answers self answers_data = Returned rs /\
    length rs = 15%nat.
Proof.
  intros H15.
  exists (result_for self <$> answers_data).
  split; [apply score_multiple_answers_map|].
  now rewrite length_fmap.
Qed.

End Scoring.

(** ** Cleaning generated feedback *)

Section Cleaning.

Import FeedbackService.

(** No white space at either end. *)
Definition trimmed (s : pystr) : Prop :=
  (forall c, head s = Some c -> is_space c = false) /\
  (forall c, last s = Some c -> is_space c = false).

Lemma lstrip_head (s : pystr) (c : N) :
  head (lstrip s) = Some c -> is_space c = false.
Proof.
  induction s as [|x s IH]; cbn; [discriminate|].
  destruct (is_space x) eqn:E; [exact IH|].
  cbn. intros [= <-]. exact E.
Qed.

Lemma rstrip_last (s : pystr) (c : N) :
  last (rstrip s) = Some c -> is_space c = false.
Proof.
  induction s as [|x s IH]; cbn; [discriminate|].
  destruct (rstrip s) as [|y r] eqn:E.
  - destruct (is_space x) eqn:Ex; cbn; [discriminate|].
    intros [= <-]. exact Ex.
  - rewrite last_cons_cons. exact IH.
Qed.

Lemma rstrip_head (s : pystr) (c : N) :
  head (rstrip s) = Some c -> head s = Some c.
Proof.
  destruct s as [|x s]; cbn; [discriminate|].
  destruct (rstrip s); [destruct (is_space x)|]; cbn; congruence.
Qed.

Lemma strip_trimmed (s : pystr) : trimmed (strip s).
Proof.
  split; intros c H.
  - apply (lstrip_head s). now apply rstrip_head.
  - now apply (rstrip_last (lstrip s)).
Qed.

(** What the loop keeps: the lines already kept, then each new stripped
    line that is not empty and not yet kept. *)
Lemma collect_unique_spec (lines acc : list pystr) :
  NoDup acc ->
  Forall (fun line => line <> [] /\ trimmed line) acc ->
  NoDup (collect_unique lines acc) /\
  Forall (fun line => line <> [] /\ trimmed line) (collect_unique lines acc) /\
  (forall line, line ∈ collect_unique lines acc <->
     line ∈ acc \/ (line <> [] /\ line ∈ strip <$> lines)).
Proof.
  revert acc. induction lines as [|l lines IH]; intros acc Hnd Hall.
  - cbn. split; [exact Hnd|]. split; [exact Hall|].
    intros line. split; [now left|]. intros [H|[_ H]]; [exact H|].
    now apply elem_of_nil in H.
  - cbn [collect_unique]. cbv zeta.
    destruct (bool_decide (strip l = [])) eqn:Ee; cbn [negb andb].
    + apply bool_decide_eq_true in Ee.
      destruct (IH acc Hnd Hall) as (H1 & H2 & H3).
      split; [exact H1|]. split; [exact H2|].
      intros line. rewrite H3, fmap_cons, elem_of_cons.
      split; [tauto|]. intros [H|[Hne [Heq|H]]]; try tauto. congruence.
    + apply bool_decide_eq_false in Ee.
      destruct (bool_decide (strip l ∈ acc)) eqn:Em; cbn [negb].
      * apply bool_decide_eq_true in Em.
        destruct (IH acc Hnd Hall) as (H1 & H2 & H3).
        split; [exact H1|]. split; [exact H2|].
        intros line. rewrite H3, fmap_cons, elem_of_cons.
        split; [tauto|]. intros [H|[Hne [Heq|H]]]; try tauto.
        left. congruence.
      * apply bool_decide_eq_false in Em.
        destruct (IH (acc ++ [strip l])) as (H1 & H2 & H3).
        { apply NoDup_app. split; [exact Hnd|]. split; [|apply NoDup_singleton].
          intros x Hx Hx'. apply list_elem_of_singleton in Hx'. congruence. }
        { apply Forall_app. split; [exact Hall|].
          apply Forall_singleton. split; [exact Ee | apply strip_trimmed]. }
        split; [exact H1|]. split; [exact H2|].
        intros line. rewrite H3, fmap_cons, elem_of_cons, elem_of_app,
          list_elem_of_singleton.
        split; [|tauto]. intros [[H|H]|H]; try tauto.
        right. split; [congruence | now left].
Qed.

Lemma join_head (sep line : pystr) (rest : list pystr) :
  line <> [] -> head (join sep (line :: rest)) = head line.
Proof.
  intros Hne. destruct line as [|c line]; [congruence|].
  destruct rest; reflexivity.
Qed.

Lemma join_last (sep : pystr) (lines : list pystr) (c : N) :
  Forall (fun line => line <> []) lines ->
  last (join sep lines) = Some c ->
  exists line, last lines = Some line /\ last line = Some c.
Proof.
  induction lines as [|l lines IH]; intros Hall; [cbn; discriminate|].
  apply Forall_cons in Hall as [Hl Hall].
  destruct lines as [|l' lines].
  - cbn. intros H. exists l. now split.
  - change (join sep (l :: l' :: lines)) with (l ++ sep ++ join sep (l' :: lines)).
    rewrite !last_app.
    destruct (last (join sep (l' :: lines))) as [y|] eqn:Ey.
    + intros [= ->]. destruct (IH Hall eq_refl) as (line & H1 & H2).
      exists line. split; [|exact H2]. now rewrite last_cons_cons.
    + exfalso. apply Forall_cons in Hall as [Hl' _].
      apply last_None in Ey.
      pose proof (join_head sep l' lines Hl') as Hh. rewrite Ey in Hh.
      destruct l'; [congruence | discriminate].
Qed.

Lemma join_trimmed (lines : list pystr) :
  Forall (fun line => line <> [] /\ trimmed line) lines ->
  trimmed (join [NL] lines).
Proof.
  intros Hall. split; intros c Hc.
  - destruct lines as [|l lines]; [discriminate|].
    apply Forall_cons in Hall as [[Hne [Hh _]] _].
    rewrite join_head in Hc by exact Hne. now apply Hh.
  - destruct (join_last [NL] lines c) as (line & Hin & Hlast); [|exact Hc|].
    + eapply Forall_impl; [exact Hall|]. now intros x [? _].
    + apply last_Some in Hin as [l' ->].
      apply Forall_app in Hall as [_ Hall].
      apply Forall_singleton in Hall as [_ [_ Hl]]. now apply Hl.
Qed.




(** Repeated and blank lines go, the others keep their order. *)
Example clean_feedback_example :
  _clean_feedback (u "  Good job. " ++ [NL] ++ u "Keep going." ++ [NL; NL]
                   ++ u "Good job." ++ [NL] ++ u "  ")
  = u "Good job." ++ [NL] ++ u "Keep going.".
Proof. vm_compute. reflexivity. Qed.

End Cleaning.

(** ** Fallback feedback *)

Section Fallback.

Import FeedbackService.













(** A total of 14 with task completion 5 and appropriateness 2: the average
    tier and two remarks. *)
Example fallback_example :
  _get_fallback_feedback
    {| task_completion := 5; accuracy := 7; appropriateness := 2; total := 14 |} 7
  = u "질문 7번에 대한 답변 분석:" ++ [NL; NL] ++ text_average
    ++ remark_task_completion ++ remark_appropriateness.
Proof. vm_compute. reflexivity. Qed.

End Fallback.

(** ** Feedback for a batch *)

Section Batch.

Import FeedbackService.

(** The text one task of the batch ends with. *)
Definition feedback_text (generation : result pystr) (request : feedback_request) : pystr :=
  match generation with
  | Returned raw => _clean_feedback raw
  | Raised _ => _get_fallback_feedback (scores request) (fr_question_number request)
  end.

Lemma generate_individual_feedback_returns (generation : result pystr)
    (request : feedback_request) :
  generate_individual_feedback generation (answer_text request)
    (question_text request) (scores request) (fr_question_number request)
  = Returned (feedback_text generation request).
Proof. destruct generation; reflexivity. Qed.

(** X6. The loop of [generate_batch_feedback] over the gathered results
    keeps their number and their positions: a text stays where it is, and an
    exception at position [i] (counted from 0, the loop starting at
    [start]) is replaced by the placeholder that names question [i + 1]. *)
Lemma valid_feedbacks_lookup (feedbacks : list (result pystr)) (start i : nat) :
  length (valid_feedbacks start feedbacks) = length feedbacks /\
  valid_feedbacks start feedbacks !! i =
    match feedbacks !! i with
    | Some (Returned feedback) => Some feedback
    | Some (Raised _) => Some (failure_placeholder (start + i))
    | None => None
    end.
Proof.
  revert start i. induction feedbacks as [|f feedbacks IH]; intros start i.
  - split; reflexivity.
  - destruct (IH (S start) (pred i)) as [Hlen _]. split.
    + destruct f; cbn [valid_feedbacks length]; now rewrite Hlen.
    + destruct i as [|i].
      * destruct f; cbn [valid_feedbacks lookup list_lookup];
          now rewrite ?Nat.add_0_r.
      * destruct (IH (S start) i) as [_ Hlk].
        rewrite Nat.add_succ_r.
        destruct f; cbn [valid_feedbacks lookup list_lookup]; exact Hlk.
Qed.

Lemma valid_feedbacks_all_returned {A} (f : nat -> A -> pystr) (l : list A) (start : nat) :
  valid_feedbacks start (imap (fun i x => Returned (f i x)) l) = imap f l.
Proof.
  revert f start. induction l as [|x l IH]; intros f start; [reflexivity|].
  cbn [imap valid_feedbacks]. f_equal. apply (IH (fun i => f (S i))).
Qed.

Lemma generate_batch_feedback_imap (generation : nat -> result pystr)
    (requests : list feedback_request) :
  generate_batch_feedback generation requests
  = Returned (imap (fun i request => feedback_text (generation i) request) requests).
Proof.
  unfold generate_batch_feedback. cbv zeta. f_equal.
  rewrite <- valid_feedbacks_all_returned with (start := 0).
  f_equal. apply imap_ext. intros i request _.
  apply generate_individual_feedback_returns.
Qed.

(** C5 (as the code has it). [generate_batch_feedback] returns as many texts
    as there are requests, and the text at position [i] belongs to request
    [i]: the cleaned output of its generation, or, when its generation
    raised, the fallback text of its own scores and question number. The
    failure of one generation changes no other position. *)
Theorem C5_batch_keeps_positions (generation : nat -> result pystr)
    (requests : list feedback_request) :
  exists out, generate_batch_feedback generation requests = Returned out /\
    length out = length requests /\
    forall (i : nat) (request : feedback_request), requests !! i = Some request ->
      out !! i = Some
        (match generation i with
         | Returned raw => _clean_feedback raw
         | Raised _ =>
             _get_fallback_feedback (scores request) (fr_question_number request)
         end).
Proof.
  eexists. split; [apply generate_batch_feedback_imap|].
  split; [apply length_imap|].
  intros i request Hi. rewrite list_lookup_imap, Hi. reflexivity.
Qed.

Definition request_1 : feedback_request :=
  {| answer_text := u "I like music."; question_text := u "Tell me about your hobby.";
     scores := {| task_completion := 5; accuracy := 7; appropriateness := 2; total := 14 |};
     fr_question_number := 1 |}.

(** C5 fails as stated: when the generation of the only item raises, its
    position holds the fallback text of the item, not the placeholder. *)
Lemma C5_failed_item_holds_fallback :
  exists out,
    generate_batch_feedback (fun _ => Raised (ModelError "generation failed")) [request_1]
    = Returned out /\
    out !! 0 = Some (_get_fallback_feedback (scores request_1) 1) /\
    out !! 0 <> Some (failure_placeholder 0).
Proof.
  eexists. split; [vm_compute; reflexivity|].
  split; [vm_compute; reflexivity|].
  vm_compute. discriminate.
Qed.

(** Scenario E: fifteen requests, the generation of question 7 raises. *)
Definition fifteen_requests : list feedback_request :=
  imap (fun i _ =>
          {| answer_text := u "I like music."; question_text := u "Tell me about your hobby.";
             scores := {| task_completion := 5; accuracy := 7;
                          appropriateness := 2; total := 14 |};
             fr_question_number := Z.of_nat i + 1 |})
       (replicate 15 ()).

Definition generation_7_fails (i : nat) : result pystr :=
  if (i =? 6)%nat then Raised (ModelError "generation failed")
  else Returned (u "Well done.").

Example scenario_E :
  exists out, generate_batch_feedback generation_7_fails fifteen_requests = Returned out /\
    length out = 15 /\
    out !! 6 = Some (_get_fallback_feedback
                       {| task_completion := 5; accuracy := 7;
                          appropriateness := 2; total := 14 |} 7) /\
    forall i, i < 15 -> i <> 6 -> out !! i = Some (u "Well done.").
Proof.
  eexists. split; [vm_compute; reflexivity|].
  split; [reflexivity|]. split; [vm_compute; reflexivity|].
  intros i Hi Hne.
  do 15 (destruct i as [|i]; [try (vm_compute; reflexivity); congruence|]). lia.
Qed.

End Batch.

(** ** Loading the models at startup *)

Section Loading.

Import MLModels MLModels.ModelFactory.

(** The handles [load_all_models] loads, in its order: the key in
    [_instances] and the class constructed under it. *)
Definition startup_roles : list (string * model_class) :=
  [ ("whisper", WhisperModelManager);
    ("roberta_task_completion",
     RobertaScoringModelManager "./model/Task_Completion" "task_completion");
    ("roberta_accuracy", RobertaScoringModelManager "./model/Accuracy" "accuracy");
    ("roberta_appropriateness",
     RobertaScoringModelManager "./model/Appropriateness" "appropriateness");
    ("llama", LlamaFeedbackModelManager) ].

(** One step of the startup: take the singleton of a role, load it. *)
Definition load_role (w : world) (role : string * model_class) : M unit :=
  handle ← get_instance role.1 role.2;
  on handle (load_model w).

Fixpoint load_roles (w : world) (roles : list (string * model_class)) : M unit :=
  match roles with
  | [] => ret ()
  | role :: rest => load_role w role;; load_roles w rest
  end.

(** What [load_model] does for a class in a world: whether it raises. *)
Definition loads (w : world) (c : model_class) : result unit :=
  (load_model w (new c)).1.

(** Whether a [load_model] that returns has assigned [_model]. *)
Definition assigns_model (w : world) (c : model_class) : Prop :=
  match c with
  | WhisperModelManager => True
  | RobertaScoringModelManager model_path _ => path_exists w model_path = true
  | LlamaFeedbackModelManager => False
  end.

(** The managers already in the registry are of the class of their key. *)
Definition agrees (roles : list (string * model_class))
    (_instances : gmap string ModelManager) : Prop :=
  forall key c m, (key, c) ∈ roles -> _instances !! key = Some m -> class m = c.

Definition loaded_at (_instances : gmap string ModelManager) (key : string) : Prop :=
  exists m, _instances !! key = Some m /\ is_loaded m = true.

(** Unfolds the sequencing of methods. *)
Ltac run_method :=
  unfold mbind, method_bind, then_, call, assign; cbn [fst snd].

(** [load_model], seen from outside: the outcome depends on the class and
    the world only, the class stays, and a loaded manager stays loaded;
    when it returns and the class assigns [_model], the manager is loaded. *)
Lemma load_model_facts (w : world) (self : ModelManager) :
  (load_model w self).1 = loads w (class self) /\
  class (load_model w self).2 = class self /\
  (is_loaded self = true -> is_loaded (load_model w self).2 = true) /\
  ((load_model w self).1 = Returned () -> assigns_model w (class self) ->
   is_loaded (load_model w self).2 = true).
Proof.
  unfold loads, load_model. destruct self as [c m t p pl]. cbn [class new].
  destruct c as [|model_path criterion|].
  - unfold Whisper.load_model. run_method.
    destruct (whisper_from_pretrained w) as [[]|]; cbn;
      [|repeat split; try tauto; discriminate].
    destruct (whisper_to_device w) as [[]|]; cbn;
      [|repeat split; try tauto; discriminate].
    destruct (whisper_processor w) as [[]|]; cbn;
      [|repeat split; try tauto; discriminate].
    destruct (whisper_pipeline w) as [[]|]; cbn; repeat split; try tauto; discriminate.
  - unfold Roberta.load_model. cbn [assigns_model].
    destruct (path_exists w model_path); cbn [negb];
      [|cbn; repeat split; try tauto; discriminate].
    run_method.
    destruct (roberta_from_pretrained w model_path) as [[]|]; cbn;
      [|repeat split; try tauto; discriminate].
    destruct (roberta_tokenizer w model_path) as [[]|]; cbn;
      [|repeat split; try tauto; discriminate].
    destruct (roberta_to_device w model_path) as [[]|]; cbn;
      repeat split; try tauto; discriminate.
  - unfold Llama.load_model. run_method.
    destruct (hub_login w) as [[]|]; cbn; [|repeat split; try tauto; discriminate].
    destruct (llama_pipeline w) as [[]|]; cbn; repeat split; try tauto; discriminate.
Qed.

(** One step touches the manager of its key only. *)
Lemma load_role_run (w : world) (key : string) (c : model_class)
    (_instances : gmap string ModelManager) :
  let self := default (new c) (_instances !! key) in
  load_role w (key, c) _instances
  = ((load_model w self).1, <[key := (load_model w self).2]> _instances).
Proof.
  cbv zeta. unfold load_role, get_instance, on, mbind, M_bind, seq. cbn [fst snd].
  destruct (_instances !! key) as [m|] eqn:E; cbn [default].
  - rewrite E. unfold id. now destruct (load_model w m).
  - rewrite lookup_insert_eq. destruct (load_model w (new c)) as [o m'].
    cbn [fst snd]. now rewrite insert_insert_eq.
Qed.

(** Two class methods that do the same on every registry. *)
Definition same {A} (c1 c2 : M A) : Prop :=
  forall _instances, c1 _instances = c2 _instances.

Lemma same_trans {A} (c1 c2 c3 : M A) : same c1 c2 -> same c2 c3 -> same c1 c3.
Proof. intros H1 H2 r. now rewrite H1. Qed.

Lemma seq_assoc {A B C} (c : M A) (k : A -> M B) (k' : B -> M C) :
  same ((c ≫= k) ≫= k') (c ≫= (fun a => k a ≫= k')).
Proof.
  intros r. unfold mbind, M_bind, seq. now destruct (c r) as [[a|e] r'].
Qed.

Lemma seq_cong {A B} (c c' : M A) (k k' : A -> M B) :
  same c c' -> (forall a, same (k a) (k' a)) -> same (c ≫= k) (c' ≫= k').
Proof.
  intros Hc Hk r. unfold mbind, M_bind, seq. rewrite Hc.
  destruct (c' r) as [[a|e] r']; [apply Hk | reflexivity].
Qed.

Lemma seq_ret_unit (c : M unit) : same (c ≫= (fun _ => ret ())) c.
Proof.
  intros r. unfold mbind, M_bind, seq, ret. now destruct (c r) as [[[]|e] r'].
Qed.

Lemma load_roles_app (w : world) (l1 l2 : list (string * model_class)) :
  same (load_roles w (l1 ++ l2)) (load_roles w l1 ≫= (fun _ => load_roles w l2)).
Proof.
  induction l1 as [|role l1 IH]; cbn [app load_roles].
  - intros r. reflexivity.
  - eapply same_trans; [|intros r; symmetry; apply seq_assoc].
    apply seq_cong; [intros r; reflexivity | intros _; exact IH].
Qed.

(** The role loaded for a name of the [criteria] list. *)
Definition roberta_role (criterion : string) : string * model_class :=
  (("roberta_" +:+ lower criterion)%string,
   RobertaScoringModelManager ("./model/" +:+ title (lower criterion))%string
     (lower criterion)).

Lemma load_roberta_models_roles (w : world) (criteria : list string) :
  same (load_roberta_models w criteria) (load_roles w (roberta_role <$> criteria)).
Proof.
  induction criteria as [|criterion criteria IH]; cbn [load_roberta_models fmap list_fmap load_roles].
  - intros r. reflexivity.
  - eapply same_trans; [|intros r; symmetry; apply seq_assoc].
    apply seq_cong; [intros r; reflexivity|]. intros handle.
    apply seq_cong; [intros r; reflexivity | intros _; exact IH].
Qed.

(** [load_all_models] is the run of the five steps in order. *)
Lemma load_all_models_steps (w : world) :
  same (load_all_models w) (load_roles w startup_roles).
Proof.
  change startup_roles with
    ([("whisper", WhisperModelManager)]
     ++ (roberta_role <$> ["Task_Completion"; "Accuracy"; "Appropriateness"])
     ++ [("llama", LlamaFeedbackModelManager)]).
  eapply same_trans; [|intros r; symmetry; apply load_roles_app].
  cbn [load_roles].
  eapply same_trans;
    [|intros r; symmetry;
      apply (seq_cong _ _ _ _ (seq_ret_unit _) (fun a r' => eq_refl))].
  unfold load_all_models, load_role at 1, get_whisper_model. cbn [fst snd].
  eapply same_trans; [|intros r; symmetry; apply seq_assoc].
  apply seq_cong; [intros r; reflexivity|]. intros handle.
  apply seq_cong; [intros r; reflexivity|]. intros _.
  eapply same_trans; [|intros r; symmetry; apply load_roles_app].
  apply seq_cong; [apply load_roberta_models_roles|]. intros _.
  cbn [load_roles].
  eapply same_trans; [|intros r; symmetry; apply seq_ret_unit].
  intros r. reflexivity.
Qed.

(** The registry agrees with the startup roles from the start, and every
    request of a startup singleton keeps it so. *)
Lemma agrees_empty (roles : list (string * model_class)) : agrees roles ∅.
Proof. intros key c m _ Hm. now rewrite lookup_empty in Hm. Qed.

Lemma agrees_get_instance (key : string) (c : model_class)
    (_instances : gmap string ModelManager) :
  (key, c) ∈ startup_roles ->
  agrees startup_roles _instances ->
  agrees startup_roles (get_instance key c _instances).2.
Proof.
  intros Hin Hag. unfold get_instance.
  destruct (_instances !! key) as [m|] eqn:E; cbn [snd]; [exact Hag|].
  intros key' c' m' Hin' Hm'.
  destruct (decide (key = key')) as [<-|Hne].
  - rewrite lookup_insert_eq in Hm'. injection Hm' as <-. cbn [class new].
    unfold startup_roles in Hin, Hin'.
    rewrite !elem_of_cons, elem_of_nil in Hin, Hin'.
    intuition congruence.
  - rewrite lookup_insert_ne in Hm' by exact Hne. now apply (Hag key' c' m').
Qed.

(** One step, from a registry that agrees with the role: the outcome is
    that of the class, only the manager under the key changes, and it does
    not go from loaded to unloaded. *)
Lemma load_role_facts (w : world) (key : string) (c : model_class)
    (_instances : gmap string ModelManager) :
  (forall m, _instances !! key = Some m -> class m = c) ->
  exists m', load_role w (key, c) _instances = (loads w c, <[key := m']> _instances) /\
    class m' = c /\
    (loaded_at _instances key -> is_loaded m' = true) /\
    (loads w c = Returned () -> assigns_model w c -> is_loaded m' = true).
Proof.
  intros Hclass.
  set (self := default (new c) (_instances !! key)).
  assert (Hself : class self = c).
  { unfold self. destruct (_instances !! key) as [m|] eqn:E; cbn; [now apply Hclass | reflexivity]. }
  destruct (load_model_facts w self) as (Hout & Hcls & Hkeep & Hset).
  rewrite Hself in Hout, Hcls, Hset.
  exists (load_model w self).2.
  split; [rewrite <- Hout; apply load_role_run|].
  split; [exact Hcls|]. split.
  - intros (m & Hm & Hl). apply Hkeep. unfold self. now rewrite Hm.
  - intros Hret Hassign. apply Hset; [now rewrite Hout | exact Hassign].
Qed.

Lemma loaded_at_insert (_instances : gmap string ModelManager) (key k : string)
    (m' : ModelManager) :
  (loaded_at _instances key -> is_loaded m' = true) ->
  loaded_at _instances k -> loaded_at (<[key := m']> _instances) k.
Proof.
  intros Hown Hk. destruct (decide (key = k)) as [->|Hne].
  - exists m'. split; [apply lookup_insert_eq | now apply Hown].
  - destruct Hk as (m & Hm & Hl). exists m. split; [|exact Hl].
    now rewrite lookup_insert_ne.
Qed.

(** The run of the steps up to the first [load_model] that raises. *)
Lemma load_roles_failure (w : world) (pre post : list (string * model_class))
    (role : string * model_class) (e : exn) (_instances : gmap string ModelManager) :
  NoDup ((pre ++ role :: post).*1) ->
  agrees (pre ++ role :: post) _instances ->
  (forall r, r ∈ pre -> loads w r.2 = Returned ()) ->
  loads w role.2 = Raised e ->
  exists _instances',
    load_roles w (pre ++ role :: post) _instances = (Raised e, _instances') /\
    (forall r, r ∈ pre -> assigns_model w r.2 -> loaded_at _instances' r.1) /\
    (forall k, loaded_at _instances k -> loaded_at _instances' k).
Proof.
  revert _instances. induction pre as [|[key c] pre IH]; intros reg Hnd Hag Hpre Hfail.
  - destruct role as [key c]. cbn [app load_roles fst snd] in *.
    destruct (load_role_facts w key c reg) as (m' & Hrun & _ & Hkeep & _).
    { intros m Hm. apply (Hag key c m); [apply elem_of_cons; now left | exact Hm]. }
    exists (<[key := m']> reg). split; [|split].
    + unfold mbind, M_bind, seq. now rewrite Hrun, Hfail.
    + intros r Hr. now apply elem_of_nil in Hr.
    + intros k. now apply loaded_at_insert.
  - cbn [app load_roles fmap list_fmap fst snd] in *.
    apply NoDup_cons in Hnd as [Hfresh Hnd].
    destruct (load_role_facts w key c reg) as (m' & Hrun & Hcls & Hkeep & Hset).
    { intros m Hm. apply (Hag key c m); [apply elem_of_cons; now left | exact Hm]. }
    assert (Hok : loads w c = Returned ()).
    { apply (Hpre (key, c)). apply elem_of_cons. now left. }
    destruct (IH (<[key := m']> reg)) as (reg' & Hrun' & Hloaded & Hkept).
    + exact Hnd.
    + intros k' c' m Hin Hm. destruct (decide (key = k')) as [->|Hne].
      * exfalso. apply Hfresh. apply list_elem_of_fmap. now exists (k', c').
      * rewrite lookup_insert_ne in Hm by exact Hne.
        apply (Hag k' c' m); [apply elem_of_cons; now right | exact Hm].
    + intros r Hr. apply Hpre. apply elem_of_cons. now right.
    + exact Hfail.
    + exists reg'. split; [|split].
      * unfold mbind, M_bind, seq. rewrite Hrun, Hok. exact Hrun'.
      * intros r Hr Has. apply elem_of_cons in Hr as [->|Hr]; [|now apply Hloaded].
        apply Hkept. exists m'. split; [apply lookup_insert_eq | now apply Hset].
      * intros k Hk. apply Hkept. now apply loaded_at_insert.
Qed.

(** C8 (as the code has it). When the [load_model] of a role raises during
    [load_all_models] and those of the roles before it returned, the same
    exception leaves [load_all_models]; every earlier role whose [load_model]
    assigned its model is loaded in the registry that is left, and so is
    every manager that was loaded before the call: nothing is rolled back.
    A classifier whose model path does not exist is no such failure:
    its [load_model] returns without raising and leaves the manager as it
    was. *)
Theorem C8_load_failure_propagates (w : world) (_instances : gmap string ModelManager)
    (pre post : list (string * model_class)) (role : string * model_class) (e : exn) :
  startup_roles = pre ++ role :: post ->
  agrees startup_roles _instances ->
  (forall r, r ∈ pre -> loads w r.2 = Returned ()) ->
  loads w role.2 = Raised e ->
  (exists _instances',
     load_all_models w _instances = (Raised e, _instances') /\
     (forall r, r ∈ pre -> assigns_model w r.2 -> loaded_at _instances' r.1) /\
     (forall k, loaded_at _instances k -> loaded_at _instances' k)) /\
  (forall model_path self, path_exists w model_path = false ->
     Roberta.load_model w model_path self = (Returned (), self)).
Proof.
  intros Hsplit Hag Hpre Hfail. split.
  - rewrite load_all_models_steps. rewrite Hsplit in *.
    apply load_roles_failure; try assumption.
    rewrite <- Hsplit. now apply (bool_decide_unpack _).
  - intros model_path self Hmissing.
    unfold Roberta.load_model. now rewrite Hmissing.
Qed.

(** Every outside call succeeds. *)
Definition world_ok : world :=
  {| whisper_from_pretrained := Returned (); whisper_to_device := Returned ();
     whisper_processor := Returned (); whisper_pipeline := Returned ();
     asr := fun _ =>
       Returned (<["text" := PStr (u "I like music.")]>
                 (<["confidence" := PFloat (9 # 10)]> ∅));
     path_exists := fun _ => true;
     roberta_from_pretrained := fun _ => Returned ();
     roberta_tokenizer := fun _ => Returned ();
     roberta_to_device := fun _ => Returned ();
     hub_login := Returned (); llama_pipeline := Returned ();
     make_upload_folder := Returned ();
     write_file := fun _ => Returned () |}.

Definition with_roberta_from_pretrained (f : string -> result unit) (w : world) : world :=
  {| whisper_from_pretrained := whisper_from_pretrained w;
     whisper_to_device := whisper_to_device w;
     whisper_processor := whisper_processor w;
     whisper_pipeline := whisper_pipeline w;
     asr := asr w; path_exists := path_exists w;
     roberta_from_pretrained := f;
     roberta_tokenizer := roberta_tokenizer w;
     roberta_to_device := roberta_to_device w;
     hub_login := hub_login w; llama_pipeline := llama_pipeline w;
     make_upload_folder := make_upload_folder w;
     write_file := write_file w |}.

Definition with_path_exists (f : string -> bool) (w : world) : world :=
  {| whisper_from_pretrained := whisper_from_pretrained w;
     whisper_to_device := whisper_to_device w;
     whisper_processor := whisper_processor w;
     whisper_pipeline := whisper_pipeline w;
     asr := asr w; path_exists := f;
     roberta_from_pretrained := roberta_from_pretrained w;
     roberta_tokenizer := roberta_tokenizer w;
     roberta_to_device := roberta_to_device w;
     hub_login := hub_login w; llama_pipeline := llama_pipeline w;
     make_upload_folder := make_upload_folder w;
     write_file := write_file w |}.

(** The weights of the accuracy classifier are corrupt. *)
Definition world_corrupt_accuracy : world :=
  with_roberta_from_pretrained
    (fun model_path =>
       if String.eqb model_path "./model/Accuracy"
       then Raised (ModelError "corrupt weights") else Returned ())
    world_ok.

(** The directory of the accuracy classifier is missing. *)
Definition world_missing_accuracy : world :=
  with_path_exists (fun p => negb (String.eqb p "./model/Accuracy")) world_ok.

Lemma C8_corrupt_accuracy_aborts :
  exists _instances',
    load_all_models world_corrupt_accuracy ∅ = (Raised (ModelError "corrupt weights"), _instances') /\
    loaded_at _instances' "whisper" /\
    loaded_at _instances' "roberta_task_completion".
Proof.
  destruct (C8_load_failure_propagates world_corrupt_accuracy ∅
              [("whisper", WhisperModelManager);
               ("roberta_task_completion",
                RobertaScoringModelManager "./model/Task_Completion" "task_completion")]
              [("roberta_appropriateness",
                RobertaScoringModelManager "./model/Appropriateness" "appropriateness");
               ("llama", LlamaFeedbackModelManager)]
              ("roberta_accuracy", RobertaScoringModelManager "./model/Accuracy" "accuracy")
              (ModelError "corrupt weights"))
    as [(reg' & Hrun & Hloaded & _) _].
  - reflexivity.
  - intros key c m _ Hm. now rewrite lookup_empty in Hm.
  - intros r Hr. rewrite !elem_of_cons, elem_of_nil in Hr.
    destruct Hr as [->|[->|[]]]; reflexivity.
  - reflexivity.
  - exists reg'. split; [exact Hrun|]. split.
    + apply (Hloaded ("whisper", WhisperModelManager));
        [apply elem_of_cons; now left | exact I].
    + apply (Hloaded ("roberta_task_completion",
                      RobertaScoringModelManager "./model/Task_Completion" "task_completion"));
        [apply elem_of_cons; right; apply elem_of_cons; now left | reflexivity].
Defined.

(** C8 fails as stated: with the directory of the accuracy classifier
    missing, [load_all_models] returns, no exception reaches the caller, and
    the accuracy handle is left unloaded. *)
Lemma C8_missing_path_is_silent :
  exists _instances',
    load_all_models world_missing_accuracy ∅ = (Returned (), _instances') /\
    (is_loaded <$> _instances' !! "roberta_accuracy") = Some false /\
    ~ loaded_at _instances' "roberta_accuracy".
Proof.
  eexists. split; [vm_compute; reflexivity|].
  split; [vm_compute; reflexivity|].
  intros (m & Hm & Hl). vm_compute in Hm. injection Hm as <-. discriminate.
Qed.

End Loading.

(** ** Transcription *)

Section Transcription.

Import MLModels MLModels.ModelFactory.

(** A method sequence that returned went through each of its steps. *)
Lemma method_bind_returned {A B} (m : method A) (k : A -> method B)
    (self self'' : ModelManager) (b : B) :
  (m ≫= k) self = (Returned b, self'') ->
  exists a self', m self = (Returned a, self') /\ k a self' = (Returned b, self'').
Proof.
  unfold mbind, method_bind, then_.
  destruct (m self) as [[a|e] self']; [|discriminate].
  intros H. now exists a, self'.
Qed.

Lemma M_bind_returned {A B} (c : M A) (k : A -> M B)
    (r r'' : gmap string ModelManager) (b : B) :
  (c ≫= k) r = (Returned b, r'') ->
  exists a r', c r = (Returned a, r') /\ k a r' = (Returned b, r'').
Proof.
  unfold mbind, M_bind, seq.
  destruct (c r) as [[a|e] r']; [|discriminate].
  intros H. now exists a, r'.
Qed.

(** ["confidence"] is no attribute of a dict, whatever its items. *)
Lemma getattr_confidence (d : gmap string pyval) (default : pyval) :
  getattr d "confidence" default = default.
Proof. reflexivity. Qed.

(** What [predict] returns, when it returns. *)
Lemma whisper_predict_returned (w : world) (audio_file_path : string)
    (self self' : ModelManager) (d : gmap string pyval) :
  Whisper.predict w audio_file_path self = (Returned d, self') ->
  exists result text,
    asr w audio_file_path = Returned result /\
    result !! "text" = Some text /\
    d = <["transcription" := text]> (<["confidence" := PNone]> ∅).
Proof.
  unfold Whisper.predict. intros H.
  apply method_bind_returned in H as (_ & self1 & _ & H).
  apply method_bind_returned in H as (result & self2 & Hrun & H).
  apply method_bind_returned in H as (text & self3 & Htext & H).
  unfold call in H, Htext. injection H as <- _. injection Htext as Htext _.
  exists result, text. split; [|split].
  - unfold Whisper.run_pipeline in Hrun.
    destruct (_pipeline self1); now injection Hrun as Hrun _.
  - unfold getitem in Htext. destruct (result !! "text"); congruence.
  - now rewrite getattr_confidence.
Qed.

(** C10. Whenever [WhisperModelManager.predict] returns, the value under
    ["confidence"] of the dict it returns is [None], whatever the pipeline
    produced (a ["confidence"] item of the pipeline's dict included): the
    code asks the dict for an attribute of that name, and a dict has none.
    Hence every [TranscriptionResponse] that [process_audio_upload] returns
    has no confidence. *)
Theorem C10_confidence_is_none (w : world) :
  (forall audio_file_path self self' d,
     Whisper.predict w audio_file_path self = (Returned d, self') ->
     d !! "confidence" = Some PNone) /\
  (forall (self : AudioService.t) file_content audio_data _instances _instances' response,
     AudioService.process_audio_upload w self file_content audio_data _instances
     = (Returned response, _instances') ->
     confidence response = None).
Proof.
  split.
  - intros path self self' d H.
    apply whisper_predict_returned in H as (result & text & _ & _ & ->).
    now rewrite lookup_insert_ne, lookup_insert_eq.
  - intros self content audio_data reg reg' response H.
    unfold AudioService.process_audio_upload in H.
    apply M_bind_returned in H as (file_path & reg1 & _ & H).
    apply M_bind_returned in H as (tr & reg2 & Htr & H).
    unfold lift in H. injection H as H _.
    assert (Hconf : get tr "confidence" = PNone).
    { unfold AudioService.transcribe_audio in Htr.
      destruct (path_exists w file_path); cbn [negb] in Htr; [|discriminate].
      unfold AudioService._transcribe_sync, on in Htr.
      destruct (reg1 !! AudioService.whisper_model self) as [model|]; [|discriminate].
      destruct ((_ ;; Whisper.predict w file_path) model) as [o model'] eqn:E.
      injection Htr as -> _.
      apply method_bind_returned in E as (_ & model1 & _ & E).
      apply whisper_predict_returned in E as (result & text & _ & _ & ->).
      unfold get. now rewrite lookup_insert_ne, lookup_insert_eq. }
    rewrite Hconf in H.
    destruct (getitem tr "transcription") as [transcription|]; cbn in H; [|discriminate].
    destruct transcription; cbn in H; try discriminate.
    now injection H as <-.
Qed.

Definition audio_service : AudioService.t :=
  {| AudioService.whisper_model := "whisper";
     AudioService.upload_folder := "records";
     AudioService.max_file_size := 50 * 1024 * 1024 |}.

(** An upload whose transcription succeeds, on a pipeline that even puts a
    ["confidence"] of 0.9 among the items of its result. *)
Lemma C10_upload_has_no_confidence :
  exists response _instances',
    AudioService.process_audio_upload world_ok audio_service []
      {| au_question_number := 3; student_id := "s1" |}
      (<["whisper" := new WhisperModelManager]> ∅)
    = (Returned response, _instances') /\
    transcription response = u "I like music." /\
    confidence response = None.
Proof.
  eexists. eexists. split; [vm_compute; reflexivity|].
  split; [vm_compute; reflexivity|].
  apply (proj2 (C10_confidence_is_none world_ok) audio_service []
           {| au_question_number := 3; student_id := "s1" |}
           (<["whisper" := new WhisperModelManager]> ∅)
           (snd (AudioService.process_audio_upload world_ok audio_service []
                   {| au_question_number := 3; student_id := "s1" |}
                   (<["whisper" := new WhisperModelManager]> ∅)))).
  vm_compute. reflexivity.
Defined.

End Transcription.

(* ===================================================================== *)
(** * Part III: further properties of the code                            *)
(* ===================================================================== *)

(** ** Criterion scores, validation and normalisation *)

Section ScoreProperties.

Import ScoringService.

(** X1. Whatever a criterion classifier does, the score [_score_] returns
    for it lies between 0 and 10: it is the model output when that is in
    range, the nearer bound when it is not, and 5 when the call raised. *)
Theorem X1_criterion_score_is_clamped (self : ScoringService.t) (c : Criterion)
    (a q : pystr) :
  (0 <= score_with (model_of self c) a q <= 10)%Q /\
  (forall raw, model_of self c a q = Returned raw ->
     ((0 <= raw <= 10)%Q -> score_with (model_of self c) a q == raw) /\
     ((raw < 0)%Q -> score_with (model_of self c) a q == 0) /\
     ((10 < raw)%Q -> score_with (model_of self c) a q == 10)) /\
  (forall e, model_of self c a q = Raised e ->
     score_with (model_of self c) a q = 5%Q).
Proof.
  split; [apply score_with_range|]. split.
  - intros raw Hraw. rewrite (score_of_success _ _ _ _ Hraw). apply clamp_spec.
  - intros e He. exact (score_of_failure _ _ _ e He).
Qed.

Lemma validate_score_true (score : Q) (criterion : string) :
  validate_score score criterion = true <-> (0 <= score <= 10)%Q.
Proof.
  unfold validate_score.
  destruct (Py.ltb score 0) eqn:E1; destruct (Py.ltb 10 score) eqn:E2;
    cbn [orb]; cmp_to_prop; split; intros H; try discriminate;
    try reflexivity; lra.
Qed.

(** X2. Every score that [score_single_answer] stores for a criterion is a
    number of hundredths between 0 and 10, so [validate_score] accepts it;
    the stored total lies between 0 and 30. *)
Theorem X2_stored_scores_are_valid (self : ScoringService.t) (a q : pystr) (n : Z)
    (r : ScoringResult) :
  score_single_answer self a q n = Returned r ->
  (forall c name, validate_score (stored c (score_breakdown r)) name = true /\
     exists k : Z, stored c (score_breakdown r) = k # 100) /\
  (0 <= total (score_breakdown r) <= 30)%Q.
Proof.
  rewrite score_single_answer_returns. intros [= <-].
  cbn [score_breakdown]. split.
  - intros c name. rewrite stored_breakdown. split.
    + apply validate_score_true. apply (round2_between 0 10), score_with_range.
    + eexists. reflexivity.
  - unfold breakdown_of. cbn [total].
    pose proof (score_with_range (task_completion_model self) a q).
    pose proof (score_with_range (accuracy_model self) a q).
    pose proof (score_with_range (appropriateness_model self) a q).
    apply (round2_between 0 30).
    unfold _score_task_completion, _score_accuracy, _score_appropriateness.
    change (inject_Z 0) with 0%Q. change (inject_Z 30) with 30%Q. lra.
Qed.

Lemma X2_scenario :
  exists r, score_single_answer svc_accuracy_down [] [] 7 = Returned r /\
    validate_score (accuracy (score_breakdown r)) "accuracy" = true.
Proof.
  eexists. split; [apply score_single_answer_returns|].
  apply (proj1 (X2_stored_scores_are_valid svc_accuracy_down [] [] 7 _
                  (score_single_answer_returns _ _ _ _)) Accuracy "accuracy").
Defined.

(** X3. With its default bounds 0 and 10, [normalize_score] returns a valid
    score for every raw score, and normalising a normalised score changes
    nothing. *)
Theorem X3_normalize_score_valid_and_idempotent (raw_score : Q) (criterion : string) :
  validate_score (normalize_score raw_score 0 10) criterion = true /\
  normalize_score (normalize_score raw_score 0 10) 0 10
  = normalize_score raw_score 0 10.
Proof.
  assert (Hr : (0 <= normalize_score raw_score 0 10 <= 10)%Q).
  { unfold normalize_score. cbv zeta. apply (round2_between 0 10), clamp_range. }
  split; [now apply validate_score_true|].
  unfold normalize_score at 1. cbv zeta.
  fold (clamp (normalize_score raw_score 0 10)).
  assert (Hc : (clamp (normalize_score raw_score 0 10) == normalize_score raw_score 0 10)%Q)
    by now apply clamp_spec.
  unfold normalize_score in *. cbv zeta in *.
  set (x := Py.max 0 (Py.min 10 raw_score)) in *.
  unfold round2 at 1. unfold round2 at 2.
  assert (Hm : (clamp (round2 x) * 100 == (round_half_even (x * 100) # 100) * 100)%Q)
    by (rewrite Hc; reflexivity).
  unfold round_half_even at 1.
  rewrite (Qfloor_comp _ _ Hm).
  rewrite (Qcompare_comp _ _ (Qminus_comp _ _ Hm _ _ (Qeq_refl _)) _ _ (Qeq_refl _)).
  fold (round_half_even ((round_half_even (x * 100) # 100) * 100)).
  fold (round2 (round_half_even (x * 100) # 100)).
  now rewrite round2_of_hundredths.
Qed.

(** X4. Each of the five grades has its own description, and so has every
    grade [calculate_final_grade] returns; any other grade code gets the
    "no grade information" text. *)
Theorem X4_every_grade_is_described (total_score : Q) :
  get_grade_description (value (calculate_final_grade total_score)) <> no_description /\
  (forall g1 g2, get_grade_description (value g1) = get_grade_description (value g2) ->
     g1 = g2) /\
  (forall code, (forall g, code <> value g) -> get_grade_description code = no_description).
Proof.
  split; [|split].
  - destruct (calculate_final_grade total_score); vm_compute; discriminate.
  - intros g1 g2. destruct g1, g2; vm_compute; congruence.
  - intros code Hcode. unfold get_grade_description, descriptions.
    rewrite !lookup_insert_ne, lookup_empty; [reflexivity|..];
      intros <-; [apply (Hcode AL) | apply (Hcode IH) | apply (Hcode IM)
                 | apply (Hcode IL) | apply (Hcode NH)]; reflexivity.
Qed.

End ScoreProperties.

(** ** The grading route of [app.py] *)

Section LegacyGrading.

Import LegacyApp.

(** X5. The band of the grading route is monotone in the total average
    score, with each cut point in the higher band: below 1.5 is NH, from 1.5
    to below 2.5 is IL, from 2.5 to below 3.5 is IM, from 3.5 to below 4.5 is
    IH, 4.5 and more is AL. *)
Theorem X5_legacy_grade_is_monotone (s t : Q) :
  ((s <= t)%Q -> rank (grade_of_average s) <= rank (grade_of_average t)) /\
  ((t < 3 # 2)%Q -> grade_of_average t = NH) /\
  ((3 # 2 <= t < 5 # 2)%Q -> grade_of_average t = IL) /\
  ((5 # 2 <= t < 7 # 2)%Q -> grade_of_average t = IM) /\
  ((7 # 2 <= t < 9 # 2)%Q -> grade_of_average t = IH) /\
  ((9 # 2 <= t)%Q -> grade_of_average t = AL).
Proof.
  unfold grade_of_average. repeat split; intros H;
    repeat (split_cmp; cbn [andb rank]; try lia; try reflexivity);
    cmp_to_prop; lra.
Qed.

End LegacyGrading.

(** ** The loops over gathered results, and cleaning once more *)

Section FeedbackProperties.

Import ScoringService FeedbackService.

(** X7. The filter of [score_multiple_answers] keeps exactly the results
    that are no exceptions, in their order: a task that raised leaves no
    entry, so the output is as long as the input only when no task raised. *)
Theorem X7_valid_results_drops_exceptions {A} (results : list (result A)) :
  length (valid_results results) <= length results /\
  (length (valid_results results) = length results <->
   forall e, Raised e ∉ results) /\
  (forall a, a ∈ valid_results results <-> Returned a ∈ results) /\
  (forall rs1 rs2 : list (result A),
     valid_results (rs1 ++ rs2) = valid_results rs1 ++ valid_results rs2).
Proof.
  assert (Hlen : forall rs : list (result A), length (@valid_results A rs) <= length rs).
  { induction rs as [|[a|e] rs IH]; cbn; lia. }
  split; [apply Hlen|]. split; [|split].
  - induction results as [|[a|e] rs IH]; cbn.
    + split; [intros _ e He; now apply elem_of_nil in He | reflexivity].
    + split.
      * intros H e He. apply elem_of_cons in He as [He|He]; [discriminate|].
        assert (Hrs : length (valid_results rs) = length rs) by lia.
        exact (proj1 IH Hrs e He).
      * intros H. f_equal. apply IH. intros e He. apply (H e).
        apply elem_of_cons. now right.
    + split.
      * intros H. pose proof (Hlen rs). lia.
      * intros H. exfalso. apply (H e). apply elem_of_cons. now left.
  - intros a. induction results as [|[a'|e] rs IH]; cbn.
    + split; intros H; now apply elem_of_nil in H.
    + rewrite !elem_of_cons, IH. split; intros [H|H]; try tauto;
        left; congruence.
    + rewrite elem_of_cons, IH. split; [tauto|]. intros [H|H]; [discriminate|exact H].
  - intros rs1 rs2. induction rs1 as [|[a|e] rs1 IH]; cbn; [reflexivity| |exact IH].
    now rewrite IH.
Qed.

Lemma lstrip_elem (s : pystr) (x : N) : x ∈ lstrip s -> x ∈ s.
Proof.
  induction s as [|c s IH]; cbn; [easy|].
  destruct (is_space c); [|easy]. intros H. apply elem_of_cons. right. now apply IH.
Qed.

Lemma rstrip_elem (s : pystr) (x : N) : x ∈ rstrip s -> x ∈ s.
Proof.
  induction s as [|c s IH]; cbn; [easy|].
  destruct (rstrip s) as [|y r].
  - destruct (is_space c); intros H; [now apply elem_of_nil in H|].
    apply list_elem_of_singleton in H as ->. apply elem_of_cons. now left.
  - intros H. apply elem_of_cons in H as [->|H]; apply elem_of_cons;
      [now left | right; now apply IH].
Qed.

Lemma strip_elem (s : pystr) (x : N) : x ∈ strip s -> x ∈ s.
Proof. intros H. now apply lstrip_elem, rstrip_elem. Qed.

Lemma lstrip_fixed (s : pystr) :
  (forall c, head s = Some c -> is_space c = false) -> lstrip s = s.
Proof.
  destruct s as [|c s]; [reflexivity|]. intros H. cbn.
  now rewrite (H c eq_refl).
Qed.

Lemma rstrip_fixed (s : pystr) :
  (forall c, last s = Some c -> is_space c = false) -> rstrip s = s.
Proof.
  induction s as [|c s IH]; [reflexivity|]. intros H. cbn.
  destruct s as [|c' s].
  - cbn. now rewrite (H c eq_refl).
  - rewrite IH; [reflexivity|]. intros x Hx. apply H. now rewrite last_cons_cons.
Qed.

Lemma strip_fixed (s : pystr) : trimmed s -> strip s = s.
Proof.
  intros [Hh Hl]. unfold strip. now rewrite (lstrip_fixed s Hh), (rstrip_fixed s Hl).
Qed.

(** The lines of a split hold no newline. *)
Lemma split_lines (s : pystr) : Forall (fun line => NL ∉ line) (split NL s).
Proof.
  induction s as [|c s IH]; cbn.
  - apply Forall_singleton. apply not_elem_of_nil.
  - destruct (N.eqb_spec c NL) as [->|Hne].
    + apply Forall_cons. split; [apply not_elem_of_nil | exact IH].
    + destruct (split NL s) as [|line lines]; [apply Forall_singleton|].
      * intros H. apply list_elem_of_singleton in H. congruence.
      * apply Forall_cons in IH as [Hl Hls]. apply Forall_cons. split; [|exact Hls].
        intros H. apply elem_of_cons in H as [H|H]; [congruence | now apply Hl].
Qed.

Lemma split_line (line rest : pystr) :
  NL ∉ line -> split NL (line ++ NL :: rest) = line :: split NL rest.
Proof.
  induction line as [|c line IH]; intros Hnl; cbn.
  - reflexivity.
  - destruct (N.eqb_spec c NL) as [->|Hne].
    + exfalso. apply Hnl. apply elem_of_cons. now left.
    + rewrite IH; [reflexivity|]. intros H. apply Hnl. apply elem_of_cons. now right.
Qed.

Lemma split_one_line (line : pystr) : NL ∉ line -> split NL line = [line].
Proof.
  induction line as [|c line IH]; intros Hnl; cbn; [reflexivity|].
  destruct (N.eqb_spec c NL) as [->|Hne].
  - exfalso. apply Hnl. apply elem_of_cons. now left.
  - rewrite IH; [reflexivity|]. intros H. apply Hnl. apply elem_of_cons. now right.
Qed.

(** Splitting what was joined gives the lines back. *)
Lemma split_join (lines : list pystr) :
  lines <> [] -> Forall (fun line => NL ∉ line) lines ->
  split NL (join [NL] lines) = lines.
Proof.
  induction lines as [|line lines IH]; [congruence|]. intros _ Hall.
  apply Forall_cons in Hall as [Hl Hall].
  destruct lines as [|line' lines].
  - cbn. now apply split_one_line.
  - change (join [NL] (line :: line' :: lines))
      with (line ++ NL :: join [NL] (line' :: lines)).
    rewrite split_line by exact Hl. f_equal. now apply IH.
Qed.

(** Lines that are already clean pass the loop unchanged. *)
Lemma collect_unique_fixed (lines acc : list pystr) :
  NoDup (acc ++ lines) ->
  Forall (fun line => line <> [] /\ trimmed line) lines ->
  collect_unique lines acc = acc ++ lines.
Proof.
  revert acc. induction lines as [|line lines IH]; intros acc Hnd Hall.
  - cbn. now rewrite app_nil_r.
  - apply Forall_cons in Hall as [[Hne Htr] Hall].
    cbn [collect_unique]. cbv zeta. rewrite (strip_fixed line Htr).
    rewrite (bool_decide_eq_false_2 _ Hne).
    assert (Hnotin : line ∉ acc).
    { apply NoDup_app in Hnd as (_ & Hdis & _). intros Hin.
      apply (Hdis line Hin). apply elem_of_cons. now left. }
    rewrite (bool_decide_eq_false_2 _ Hnotin). cbn [negb andb].
    rewrite IH; [now rewrite <- app_assoc | now rewrite <- app_assoc | exact Hall].
Qed.

Lemma clean_feedback_fixed (lines : list pystr) :
  NoDup lines ->
  Forall (fun line => line <> [] /\ trimmed line) lines ->
  Forall (fun line => NL ∉ line) lines ->
  length (join [NL] lines) <= 1000 ->
  _clean_feedback (join [NL] lines) = join [NL] lines.
Proof.
  intros Hnd Hall Hnl Hlen. unfold _clean_feedback. cbv zeta.
  rewrite (strip_fixed _ (join_trimmed _ Hall)).
  destruct lines as [|line lines].
  - reflexivity.
  - rewrite split_join by (congruence || exact Hnl).
    rewrite (collect_unique_fixed _ [] Hnd Hall). cbn [app].
    destruct (Nat.ltb_spec 1000 (length (join [NL] (line :: lines)))); [lia | reflexivity].
Qed.

(** X8. Cleaning is idempotent on every output that was not truncated: if
    the cleaned feedback has at most 1000 characters, cleaning it again
    returns it unchanged. *)
Theorem X8_clean_feedback_idempotent (raw : pystr) :
  length (_clean_feedback raw) <= 1000 ->
  _clean_feedback (_clean_feedback raw) = _clean_feedback raw.
Proof.
  intros Hlen.
  destruct (collect_unique_spec (split NL (strip raw)) [])
    as (Hnd & Hall & Hin); [apply NoDup_nil_2 | apply Forall_nil_2 |].
  assert (Hnl : Forall (fun line => NL ∉ line) (collect_unique (split NL (strip raw)) [])).
  { apply Forall_forall. intros line Hline. apply Hin in Hline as [H|[_ H]];
      [now apply elem_of_nil in H|].
    apply list_elem_of_fmap in H as (l & -> & Hl).
    pose proof (split_lines (strip raw)) as Hs.
    rewrite Forall_forall in Hs. intros Hc. apply (Hs l Hl). now apply strip_elem. }
  unfold _clean_feedback in Hlen |- * at 2 3. cbv zeta in *.
  set (cleaned := join [NL] (collect_unique (split NL (strip raw)) [])) in *.
  destruct (Nat.ltb_spec 1000 (length cleaned)) as [Hlong|Hshort].
  - rewrite length_app, length_take_le in Hlen by lia.
    change (length ellipsis) with 3 in Hlen. lia.
  - now apply clean_feedback_fixed.
Qed.

Lemma X8_example :
  _clean_feedback (_clean_feedback (u "  Good job. " ++ [NL] ++ u "Good job."))
  = _clean_feedback (u "  Good job. " ++ [NL] ++ u "Good job.").
Proof.
  apply (X8_clean_feedback_idempotent (u "  Good job. " ++ [NL] ++ u "Good job.")).
  vm_compute. lia.
Defined.

(** X9. A raw feedback made of white space only (blanks, tabs, newlines)
    is cleaned to the empty string. *)
Theorem X9_blank_feedback_is_empty (raw : pystr) :
  Forall (fun c => is_space c = true) raw -> _clean_feedback raw = [].
Proof.
  intros Hall.
  assert (Hl : lstrip raw = []).
  { induction Hall as [|c raw Hc _ IH]; cbn; [reflexivity | now rewrite Hc]. }
  unfold _clean_feedback, strip. now rewrite Hl.
Qed.

Lemma X9_example : _clean_feedback (u "  " ++ [NL; 9%N] ++ u " ") = [].
Proof.
  apply X9_blank_feedback_is_empty. repeat constructor.
Defined.


End FeedbackProperties.

(** ** Model managers and the registry *)

Section ManagerProperties.

Import MLModels MLModels.ModelFactory.

(** A getter of the factory constructs its manager once. *)
Definition construct_once (get : M string) : Prop :=
  forall _instances, exists handle _instances',
    get _instances = (Returned handle, _instances') /\
    get _instances' = (Returned handle, _instances') /\
    is_Some (_instances' !! handle) /\
    (is_Some (_instances !! handle) -> _instances' = _instances) /\
    (_instances !! handle = None ->
     is_loaded <$> _instances' !! handle = Some false) /\
    (forall k, k <> handle -> _instances' !! k = _instances !! k).

Lemma get_instance_once (key : string) (make : model_class) :
  construct_once (get_instance key make).
Proof.
  intros reg. unfold get_instance.
  destruct (reg !! key) as [m|] eqn:E.
  - exists key, reg. rewrite E. repeat split; eauto.
    intros H. congruence.
  - exists key, (<[key := new make]> reg). rewrite lookup_insert_eq.
    repeat split; eauto.
    + intros [m Hm]. congruence.
    + intros k Hk. now rewrite lookup_insert_ne.
Qed.

Lemma roberta_key_injective (c1 c2 : string) :
  ("roberta_" +:+ c1 = "roberta_" +:+ c2)%string -> c1 = c2.
Proof. cbn. intros H. now repeat injection H as H. Qed.

(** X11. The three getters of [ModelFactory] are singletons: the first
    request constructs an unloaded manager under the role's key, a later
    request returns the same handle and leaves the registry, a loaded
    manager included, as it is, and no request touches another role.
    Different criteria have different handles, none of them the handle of
    the transcriber or of the generator. *)
Theorem X11_getters_construct_once :
  construct_once get_whisper_model /\
  construct_once get_llama_model /\
  (forall criterion, construct_once (get_roberta_model criterion)) /\
  (forall c1 c2 r r1 r2,
     (get_roberta_model c1 r).1 = Returned r1 ->
     (get_roberta_model c2 r).1 = Returned r2 ->
     (r1 = r2 <-> c1 = c2) /\ r1 <> "whisper" /\ r1 <> "llama").
Proof.
  split; [apply get_instance_once|]. split; [apply get_instance_once|].
  split; [intros c; apply get_instance_once|].
  intros c1 c2 r r1 r2. unfold get_roberta_model, get_instance. cbv zeta.
  destruct (r !! _); destruct (r !! _); cbn [fst]; intros [= <-] [= <-];
    (split; [split; [apply roberta_key_injective | now intros ->]|]);
    split; discriminate.
Qed.

(** [load_model] loads only where it assigns [_model]. *)
Lemma load_model_loaded_only_if (w : world) (self : ModelManager) :
  is_loaded (load_model w self).2 = true ->
  is_loaded self = true \/ assigns_model w (class self).
Proof.
  unfold load_model. destruct self as [c m t p pl]. cbn [class].
  destruct c as [|model_path criterion|]; [right; exact I | |].
  - unfold Roberta.load_model. cbn [assigns_model].
    destruct (path_exists w model_path); cbn [negb snd]; [now right | now left].
  - unfold Llama.load_model, mbind, method_bind, then_, call, assign.
    destruct (hub_login w) as [[]|]; cbn; [|now left].
    destruct (llama_pipeline w) as [[]|]; cbn; now left.
Qed.

(** The run of the steps when every [load_model] returns. *)
Lemma load_roles_success (w : world) (roles : list (string * model_class))
    (_instances : gmap string ModelManager) :
  NoDup (roles.*1) ->
  agrees roles _instances ->
  (forall r, r ∈ roles -> loads w r.2 = Returned ()) ->
  exists _instances',
    load_roles w roles _instances = (Returned (), _instances') /\
    (forall r, r ∈ roles -> assigns_model w r.2 -> loaded_at _instances' r.1) /\
    (forall k, loaded_at _instances k -> loaded_at _instances' k) /\
    (forall k, loaded_at _instances' k ->
       loaded_at _instances k \/ exists c, (k, c) ∈ roles /\ assigns_model w c).
Proof.
  revert _instances. induction roles as [|[key c] roles IH]; intros reg Hnd Hag Hall.
  - exists reg. cbn. repeat split; eauto.
    intros r Hr. now apply elem_of_nil in Hr.
  - cbn [fmap list_fmap fst load_roles] in *.
    apply NoDup_cons in Hnd as [Hfresh Hnd].
    assert (Hclass : forall m, reg !! key = Some m -> class m = c).
    { intros m Hm. apply (Hag key c m); [apply elem_of_cons; now left | exact Hm]. }
    pose proof (load_role_run w key c reg) as Hrun. cbv zeta in Hrun.
    set (self := default (new c) (reg !! key)) in *.
    assert (Hself : class self = c).
    { unfold self. destruct (reg !! key) as [m|] eqn:E; cbn; [now apply Hclass | reflexivity]. }
    destruct (load_model_facts w self) as (Hout & Hcls & Hkeep & Hset).
    pose proof (load_model_loaded_only_if w self) as Honly.
    rewrite Hself in Hout, Hcls, Hset, Honly.
    assert (Hok : loads w c = Returned ()).
    { apply (Hall (key, c)). apply elem_of_cons. now left. }
    set (m' := (load_model w self).2) in *.
    destruct (IH (<[key := m']> reg)) as (reg' & Hrun' & Hloaded & Hkept & Hconv).
    + exact Hnd.
    + intros k' c' m Hin Hm. destruct (decide (key = k')) as [->|Hne].
      * exfalso. apply Hfresh. apply list_elem_of_fmap. now exists (k', c').
      * rewrite lookup_insert_ne in Hm by exact Hne.
        apply (Hag k' c' m); [apply elem_of_cons; now right | exact Hm].
    + intros r Hr. apply Hall. apply elem_of_cons. now right.
    + exists reg'. split; [|split; [|split]].
      * unfold mbind, M_bind, seq. rewrite Hrun, Hout, Hok. exact Hrun'.
      * intros r Hr Has. apply elem_of_cons in Hr as [->|Hr]; [|now apply Hloaded].
        apply Hkept. exists m'. split; [apply lookup_insert_eq|].
        apply Hset; [now rewrite Hout | exact Has].
      * intros k Hk. apply Hkept. apply loaded_at_insert; [|exact Hk].
        intros (m & Hm & Hl). apply Hkeep. unfold self. now rewrite Hm.
      * intros k Hk. apply Hconv in Hk as [(m & Hm & Hl)|(c' & Hin & Has)].
        -- destruct (decide (key = k)) as [<-|Hne].
           ++ rewrite lookup_insert_eq in Hm. injection Hm as <-.
              apply Honly in Hl as [Hl|Has].
              ** left. unfold self in Hl. destruct (reg !! key) as [m0|] eqn:E.
                 --- exists m0. now split.
                 --- discriminate.
              ** right. exists c. split; [apply elem_of_cons; now left | exact Has].
           ++ rewrite lookup_insert_ne in Hm by exact Hne. left. now exists m.
        -- right. exists c'. split; [apply elem_of_cons; now right | exact Has].
Qed.

(** X12. When the [load_model] of each of the five roles returns,
    [load_all_models] returns; afterwards the transcriber and every
    classifier whose model path exists are loaded, what was loaded before
    still is, and nothing else is: the handle of the LLaMA generator is not
    loaded, as its [load_model] assigns [_pipeline] and never [_model]. *)
Theorem X12_load_all_models_success (w : world) (_instances : gmap string ModelManager) :
  agrees startup_roles _instances ->
  (forall r, r ∈ startup_roles -> loads w r.2 = Returned ()) ->
  exists _instances',
    load_all_models w _instances = (Returned (), _instances') /\
    (forall r, r ∈ startup_roles -> assigns_model w r.2 -> loaded_at _instances' r.1) /\
    (forall k, loaded_at _instances k -> loaded_at _instances' k) /\
    (~ loaded_at _instances "llama" -> ~ loaded_at _instances' "llama").
Proof.
  intros Hag Hall. rewrite load_all_models_steps.
  destruct (load_roles_success w startup_roles _instances)
    as (reg' & Hrun & Hloaded & Hkept & Hconv); try assumption.
  { now apply (bool_decide_unpack _). }
  exists reg'. split; [exact Hrun|]. split; [exact Hloaded|]. split; [exact Hkept|].
  intros Hno Hl. apply Hconv in Hl as [Hl|(c & Hin & Has)]; [now apply Hno|].
  unfold startup_roles in Hin. rewrite !elem_of_cons, elem_of_nil in Hin.
  destruct Hin as [H|[H|[H|[H|[H|[]]]]]]; try discriminate.
  injection H as ->. exact Has.
Qed.

Lemma X12_startup_on_a_healthy_world :
  exists _instances',
    load_all_models world_ok ∅ = (Returned (), _instances') /\
    loaded_at _instances' "whisper" /\
    loaded_at _instances' "roberta_accuracy" /\
    ~ loaded_at _instances' "llama".
Proof.
  destruct (X12_load_all_models_success world_ok ∅) as (reg' & Hrun & Hl & _ & Hno).
  - apply agrees_empty.
  - intros r Hr. unfold startup_roles in Hr. rewrite !elem_of_cons, elem_of_nil in Hr.
    destruct Hr as [->|[->|[->|[->|[->|[]]]]]]; reflexivity.
  - exists reg'. split; [exact Hrun|]. split; [|split].
    + apply (Hl ("whisper", WhisperModelManager)); [|exact I].
      apply elem_of_cons. now left.
    + apply (Hl ("roberta_accuracy", RobertaScoringModelManager "./model/Accuracy" "accuracy"));
        [|reflexivity].
      unfold startup_roles. rewrite !elem_of_cons. tauto.
    + apply Hno. intros (m & Hm & _). now rewrite lookup_empty in Hm.
Defined.

End ManagerProperties.

(** ** Inference on a manager *)

Section InferenceProperties.

Import MLModels MLModels.ModelFactory ScoringService.

(** X13. Whenever [RobertaScoringModelManager.predict] returns, the score
    lies between 0 and 10 and the manager is loaded; the clamp that the
    scoring service applies on top changes nothing. *)
Theorem X13_roberta_predict_in_range (w : world) (infer : string -> pystr -> result Q)
    (model_path : string) (text question : pystr) (self self' : ModelManager) (score : Q) :
  roberta_predict w infer model_path text question self = (Returned score, self') ->
  (0 <= score <= 10)%Q /\ is_loaded self' = true /\ (clamp score == score)%Q.
Proof.
  unfold roberta_predict. intros H.
  apply method_bind_returned in H as (_ & self1 & _ & H).
  unfold classify in H.
  destruct (_tokenizer self1); [|discriminate].
  destruct (_model self1) as [m|] eqn:Em; [|discriminate].
  destruct (infer model_path (input_text text question)) as [raw|]; [|discriminate].
  cbn in H. injection H as <- <-.
  pose proof (clamp_range raw) as Hr. unfold clamp in Hr.
  split; [exact Hr|]. split; [unfold is_loaded; now rewrite Em|].
  now apply clamp_spec.
Qed.

Lemma X13_out_of_range_logit :
  exists self',
    roberta_predict world_ok (fun _ _ => Returned 12%Q) "./model/Accuracy"
      (u "I like music.") (u "Tell me about your hobby.")
      (new (RobertaScoringModelManager "./model/Accuracy" "accuracy"))
    = (Returned 10%Q, self') /\ is_loaded self' = true.
Proof.
  eexists. split; [vm_compute; reflexivity|].
  apply (X13_roberta_predict_in_range world_ok (fun _ _ => Returned 12%Q)
           "./model/Accuracy" (u "I like music.") (u "Tell me about your hobby.")
           (new (RobertaScoringModelManager "./model/Accuracy" "accuracy")) _ 10%Q).
  vm_compute. reflexivity.
Defined.

(** The scoring service over managers as [__init__] takes them from the
    factory. A call on an unloaded manager whose path is missing leaves the
    manager as it is, so each classifier is a function of the texts. *)
Definition service_on (w : world) (infer : string -> pystr -> result Q)
    (task_completion accuracy appropriateness : ModelManager) : ScoringService.t :=
  {| task_completion_model := fun a q =>
       (scoring_call w infer "./model/Task_Completion" a q task_completion).1;
     accuracy_model := fun a q =>
       (scoring_call w infer "./model/Accuracy" a q accuracy).1;
     appropriateness_model := fun a q =>
       (scoring_call w infer "./model/Appropriateness" a q appropriateness).1 |}.

Lemma scoring_call_missing_path (w : world) (infer : string -> pystr -> result Q)
    (model_path : string) (a q : pystr) (self : ModelManager) :
  path_exists w model_path = false ->
  is_loaded self = false -> _tokenizer self = None ->
  scoring_call w infer model_path a q self
  = (Raised (TypeError "'NoneType' object is not callable"), self).
Proof.
  intros Hpath Hl Ht.
  unfold scoring_call, roberta_predict, mbind, method_bind, then_.
  rewrite Hl. unfold Roberta.load_model. rewrite Hpath. cbn [negb].
  rewrite Hl. unfold classify. now rewrite Ht.
Qed.

(** X14. When the three model directories are missing, each criterion call
    on a fresh manager raises (the tokenizer is [None]) and leaves the
    manager unloaded, so every answer is scored 5, 5, 5 with total 15,
    whatever the texts, and a total of 15 is graded IL. *)
Theorem X14_missing_models_score_five (w : world) (infer : string -> pystr -> result Q)
    (a q : pystr) (n : Z) :
  path_exists w "./model/Task_Completion" = false ->
  path_exists w "./model/Accuracy" = false ->
  path_exists w "./model/Appropriateness" = false ->
  exists r,
    score_single_answer
      (service_on w infer
         (new (RobertaScoringModelManager "./model/Task_Completion" "task_completion"))
         (new (RobertaScoringModelManager "./model/Accuracy" "accuracy"))
         (new (RobertaScoringModelManager "./model/Appropriateness" "appropriateness")))
      a q n = Returned r /\
    (task_completion (score_breakdown r) == 5)%Q /\
    (accuracy (score_breakdown r) == 5)%Q /\
    (appropriateness (score_breakdown r) == 5)%Q /\
    (total (score_breakdown r) == 15)%Q /\
    calculate_final_grade (total (score_breakdown r)) = IL.
Proof.
  intros H1 H2 H3. eexists. split; [apply score_single_answer_returns|].
  cbn [score_breakdown]. unfold breakdown_of.
  cbn [task_completion accuracy appropriateness total].
  unfold _score_task_completion, _score_accuracy, _score_appropriateness,
    score_with, service_on.
  cbn [task_completion_model accuracy_model appropriateness_model].
  rewrite !scoring_call_missing_path by (assumption || reflexivity).
  cbn [fst]. repeat split; vm_compute; reflexivity.
Qed.

Lemma X14_all_directories_missing :
  exists r,
    score_single_answer
      (service_on (with_path_exists (fun _ => false) world_ok) (fun _ _ => Returned 9%Q)
         (new (RobertaScoringModelManager "./model/Task_Completion" "task_completion"))
         (new (RobertaScoringModelManager "./model/Accuracy" "accuracy"))
         (new (RobertaScoringModelManager "./model/Appropriateness" "appropriateness")))
      (u "I like music.") (u "Tell me about your hobby.") 1 = Returned r /\
    (total (score_breakdown r) == 15)%Q.
Proof.
  destruct (X14_missing_models_score_five (with_path_exists (fun _ => false) world_ok)
              (fun _ _ => Returned 9%Q) (u "I like music.")
              (u "Tell me about your hobby.") 1)
    as (r & Hr & _ & _ & _ & Ht & _); try reflexivity.
  exists r. now split.
Defined.

(** X15. A Whisper [load_model] that fails after the model was assigned
    (at the processor or at the pipeline) leaves a manager that reports
    [is_loaded] and has no pipeline: every later [predict] on it raises a
    [TypeError] and never loads again, in whatever state the outside is. *)
Theorem X15_half_loaded_whisper_never_recovers (w : world) (self : ModelManager) (e : exn) :
  whisper_from_pretrained w = Returned () ->
  whisper_to_device w = Returned () ->
  (whisper_processor w = Raised e \/
   (whisper_processor w = Returned () /\ whisper_pipeline w = Raised e)) ->
  _pipeline self = None ->
  (Whisper.load_model w self).1 = Raised e /\
  is_loaded (Whisper.load_model w self).2 = true /\
  forall w' audio_file_path,
    Whisper.predict w' audio_file_path (Whisper.load_model w self).2
    = (Raised (TypeError "'NoneType' object is not callable"),
       (Whisper.load_model w self).2).
Proof.
  intros H1 H2 H3 Hp.
  unfold Whisper.load_model, mbind, method_bind, then_, call, assign.
  rewrite H1, H2.
  destruct H3 as [H3|[H3 H4]]; rewrite H3; [|rewrite H4]; cbn [fst snd];
    (split; [reflexivity|]); (split; [reflexivity|]);
    intros w' path; unfold Whisper.predict, mbind, method_bind, then_, call;
    cbn [is_loaded set_model set_processor _model]; unfold Whisper.run_pipeline;
    cbn [_pipeline set_model set_processor]; now rewrite Hp.
Qed.

Definition with_whisper_processor (outcome : result unit) (w : world) : world :=
  {| whisper_from_pretrained := whisper_from_pretrained w;
     whisper_to_device := whisper_to_device w;
     whisper_processor := outcome;
     whisper_pipeline := whisper_pipeline w;
     asr := asr w; path_exists := path_exists w;
     roberta_from_pretrained := roberta_from_pretrained w;
     roberta_tokenizer := roberta_tokenizer w;
     roberta_to_device := roberta_to_device w;
     hub_login := hub_login w; llama_pipeline := llama_pipeline w;
     make_upload_folder := make_upload_folder w;
     write_file := write_file w |}.

Lemma X15_processor_download_fails :
  Whisper.predict world_ok "records/s1_q3.webm"
    (Whisper.load_model
       (with_whisper_processor (Raised (ModelError "download failed")) world_ok)
       (new WhisperModelManager)).2
  = (Raised (TypeError "'NoneType' object is not callable"),
     (Whisper.load_model
        (with_whisper_processor (Raised (ModelError "download failed")) world_ok)
        (new WhisperModelManager)).2).
Proof.
  apply (X15_half_loaded_whisper_never_recovers
           (with_whisper_processor (Raised (ModelError "download failed")) world_ok)
           (new WhisperModelManager) (ModelError "download failed"));
    try reflexivity.
  left. reflexivity.
Defined.

(** X16. A Whisper manager that [load_model] has loaded is loaded once:
    [predict] on it calls nothing of the loading again, leaves the manager
    as it is, and its outcome is that of the pipeline on the file, read at
    ["text"]. *)
Theorem X16_loaded_whisper_is_reused (w0 w : world) (self0 self : ModelManager)
    (audio_file_path : string) :
  Whisper.load_model w0 self0 = (Returned (), self) ->
  is_loaded self = true /\
  Whisper.predict w audio_file_path self
  = (result ← asr w audio_file_path;
     text ← getitem result "text";
     Returned (<["transcription" := text]> (<["confidence" := PNone]> ∅)),
     self).
Proof.
  unfold Whisper.load_model, mbind at 1 2 3 4 5 6, method_bind, then_, call, assign.
  destruct (whisper_from_pretrained w0) as [[]|]; [|discriminate].
  destruct (whisper_to_device w0) as [[]|]; [|discriminate].
  destruct (whisper_processor w0) as [[]|]; [|discriminate].
  destruct (whisper_pipeline w0) as [[]|]; [|discriminate].
  cbn. intros [= <-]. split; [reflexivity|].
  unfold Whisper.predict, mbind at 1 2 3, method_bind, then_, call, Whisper.run_pipeline.
  cbn [is_loaded _model _pipeline set_pipeline set_processor set_model].
  destruct (asr w audio_file_path) as [result|]; [|reflexivity].
  cbn. destruct (getitem result "text"); reflexivity.
Qed.

Lemma X16_second_transcription :
  (Whisper.predict (with_whisper_processor (Raised (ModelError "hub is down")) world_ok)
     "records/s1_q4.webm" (Whisper.load_model world_ok (new WhisperModelManager)).2).2
  = (Whisper.load_model world_ok (new WhisperModelManager)).2.
Proof.
  destruct (X16_loaded_whisper_is_reused world_ok
              (with_whisper_processor (Raised (ModelError "hub is down")) world_ok)
              (new WhisperModelManager)
              (Whisper.load_model world_ok (new WhisperModelManager)).2
              "records/s1_q4.webm") as [_ H]; [reflexivity|].
  now rewrite H.
Defined.

End InferenceProperties.

(** ** Uploads *)

Section UploadProperties.

Import MLModels MLModels.ModelFactory.

(** X17. [process_audio_upload] refuses a file longer than [max_file_size]
    with a [ValueError] before anything is written, and fails when the saved
    file is not found; in both cases the model registry is left as it was,
    no model is loaded. A file of at most [max_file_size] bytes passes the
    size test: [save_audio_file] then returns the path it wrote to. *)
Theorem X17_upload_failures_leave_the_registry (w : world) (self : AudioService.t)
    (file_content : list Byte.byte) (audio_data : AudioUpload)
    (_instances : gmap string ModelManager) :
  (make_upload_folder w = Returned () ->
   (AudioService.max_file_size self < N.of_nat (length file_content))%N ->
   AudioService.process_audio_upload w self file_content audio_data _instances
   = (Raised (ValueError "File size exceeds maximum allowed size"), _instances)) /\
  (path_exists w (AudioService.get_file_path self (student_id audio_data)
                    (au_question_number audio_data) "webm") = false ->
   exists e,
     AudioService.process_audio_upload w self file_content audio_data _instances
     = (Raised e, _instances)) /\
  (make_upload_folder w = Returned () ->
   (N.of_nat (length file_content) <= AudioService.max_file_size self)%N ->
   write_file w (AudioService.get_file_path self (student_id audio_data)
                   (au_question_number audio_data) "webm") = Returned () ->
   AudioService.save_audio_file w self file_content (student_id audio_data)
     (au_question_number audio_data)
   = Returned (AudioService.get_file_path self (student_id audio_data)
                 (au_question_number audio_data) "webm")).
Proof.
  set (path := AudioService.get_file_path self (student_id audio_data)
                 (au_question_number audio_data) "webm").
  split; [|split].
  - intros Hdir Hlong.
    unfold AudioService.process_audio_upload, mbind at 1, M_bind, seq, lift,
      AudioService.save_audio_file.
    rewrite Hdir. cbn [mbind result_bind Py.bind].
    apply N.ltb_lt in Hlong. now rewrite Hlong.
  - intros Hmissing.
    unfold AudioService.process_audio_upload, mbind at 1, M_bind, seq, lift.
    destruct (AudioService.save_audio_file w self file_content (student_id audio_data)
                (au_question_number audio_data)) as [file_path|e] eqn:Hsave;
      [|now exists e].
    assert (Hpath : file_path = path).
    { unfold AudioService.save_audio_file in Hsave.
      destruct (make_upload_folder w) as [[]|]; cbn in Hsave; [|discriminate].
      destruct (_ <? _)%N; [discriminate|].
      fold path in Hsave. destruct (write_file w path) as [[]|]; cbn in Hsave; congruence. }
    subst file_path.
    unfold mbind, M_bind, seq, AudioService.transcribe_audio. rewrite Hmissing.
    cbn [negb]. unfold lift. eexists. reflexivity.
  - intros Hdir Hsize Hwrite. unfold AudioService.save_audio_file.
    rewrite Hdir. cbn [mbind result_bind Py.bind].
    apply N.ltb_ge in Hsize. rewrite Hsize. fold path. now rewrite Hwrite.
Qed.

Lemma whisper_load_returned (w : world) (self self' : ModelManager) :
  Whisper.load_model w self = (Returned (), self') -> is_loaded self' = true.
Proof.
  unfold Whisper.load_model, mbind, method_bind, then_, call, assign.
  destruct (whisper_from_pretrained w) as [[]|]; [|discriminate].
  destruct (whisper_to_device w) as [[]|]; [|discriminate].
  destruct (whisper_processor w) as [[]|]; [|discriminate].
  destruct (whisper_pipeline w) as [[]|]; [|discriminate].
  cbn. now intros [= <-].
Qed.

(** X18. A [TranscriptionResponse] that [process_audio_upload] returns
    carries the question number of the upload and the text the pipeline gave
    for the file that was saved for this student and question; the file was
    within the size limit, and the transcriber is loaded afterwards. *)
Theorem X18_upload_success (w : world) (self : AudioService.t)
    (file_content : list Byte.byte) (audio_data : AudioUpload)
    (_instances _instances' : gmap string ModelManager) (response : TranscriptionResponse) :
  AudioService.process_audio_upload w self file_content audio_data _instances
  = (Returned response, _instances') ->
  tr_question_number response = au_question_number audio_data /\
  (N.of_nat (length file_content) <= AudioService.max_file_size self)%N /\
  (exists result,
     asr w (AudioService.get_file_path self (student_id audio_data)
              (au_question_number audio_data) "webm") = Returned result /\
     result !! "text" = Some (PStr (transcription response))) /\
  loaded_at _instances' (AudioService.whisper_model self).
Proof.
  set (path := AudioService.get_file_path self (student_id audio_data)
                 (au_question_number audio_data) "webm").
  intros H. unfold AudioService.process_audio_upload in H.
  apply M_bind_returned in H as (file_path & reg1 & Hsave & H).
  apply M_bind_returned in H as (tr & reg2 & Htr & H).
  unfold lift in H, Hsave. injection H as H <-. injection Hsave as Hsave <-.
  unfold AudioService.save_audio_file in Hsave.
  destruct (make_upload_folder w) as [[]|]; cbn in Hsave; [|discriminate].
  destruct (N.ltb_spec (AudioService.max_file_size self) (N.of_nat (length file_content)))
    as [Hlong|Hsize]; [discriminate|].
  fold path in Hsave. destruct (write_file w path) as [[]|]; cbn in Hsave; [|discriminate].
  injection Hsave as <-.
  unfold AudioService.transcribe_audio in Htr.
  destruct (path_exists w path); cbn [negb] in Htr; [|discriminate].
  unfold AudioService._transcribe_sync, on in Htr.
  destruct (_instances !! AudioService.whisper_model self) as [model|]; [|discriminate].
  destruct ((_ ;; Whisper.predict w path) model) as [o model'] eqn:E.
  injection Htr as -> <-.
  apply method_bind_returned in E as (_ & model1 & _ & E).
  pose proof E as Hpred.
  apply whisper_predict_returned in E as (result & text & Hasr & Htext & ->).
  unfold getitem in H. rewrite lookup_insert_eq in H. cbn in H.
  unfold get in H. rewrite lookup_insert_ne, lookup_insert_eq in H by discriminate.
  destruct text; cbn in H; try discriminate. injection H as <-.
  cbn [tr_question_number transcription].
  split; [reflexivity|]. split; [exact Hsize|]. split; [now exists result|].
  exists model'. split; [apply lookup_insert_eq|].
  unfold Whisper.predict in Hpred.
  apply method_bind_returned in Hpred as ([] & model2 & Hload & Hrest).
  apply method_bind_returned in Hrest as (res & model3 & Hrun & Hrest).
  apply method_bind_returned in Hrest as (txt & model4 & Hget & Hrest).
  unfold call in Hrest, Hget. injection Hrest as _ <-. injection Hget as _ <-.
  unfold Whisper.run_pipeline in Hrun.
  destruct (_pipeline model2); [|discriminate]. injection Hrun as _ <-.
  destruct (is_loaded model1) eqn:El.
  - unfold call in Hload. now injection Hload as <-.
  - now apply whisper_load_returned in Hload.
Qed.

Lemma X18_upload_of_question_3 :
  exists response _instances',
    AudioService.process_audio_upload world_ok audio_service []
      {| au_question_number := 3; student_id := "s1" |}
      (<["whisper" := new WhisperModelManager]> ∅)
    = (Returned response, _instances') /\
    tr_question_number response = 3%Z /\
    loaded_at _instances' "whisper".
Proof.
  eexists. eexists. split; [vm_compute; reflexivity|].
  destruct (X18_upload_success world_ok audio_service []
              {| au_question_number := 3; student_id := "s1" |}
              (<["whisper" := new WhisperModelManager]> ∅)
              (snd (AudioService.process_audio_upload world_ok audio_service []
                      {| au_question_number := 3; student_id := "s1" |}
                      (<["whisper" := new WhisperModelManager]> ∅)))
              {| tr_question_number := 3; transcription := u "I like music.";
                 confidence := None |}) as (Hn & _ & _ & Hl).
  - vm_compute. reflexivity.
  - split; [exact Hn | exact Hl].
Defined.

End UploadProperties.


(** ** Question selection *)

Section SurveyProperties.

Import SurveyService.

Variable get_by_property : pystr -> result (list Question).
Variable lower : pystr -> pystr.

(** Numbered from 1 in the order of the list. *)
Definition numbered (qs : list QuestionResponse) : Prop :=
  forall (i : nat) q, qs !! i = Some q -> qr_question_number q = (Z.of_nat i + 1)%Z.

Lemma fill_spec (fuel : nat) (qs : list QuestionResponse) :
  length qs <= 15 -> 15 <= fuel + length qs -> numbered qs ->
  length (fill fuel qs) = 15 /\ numbered (fill fuel qs) /\
  (forall i, i < length qs -> fill fuel qs !! i = qs !! i) /\
  (forall i, length qs <= i < 15 ->
     fill fuel qs !! i = Some (placeholder_question (Z.of_nat i + 1))).
Proof.
  revert qs. induction fuel as [|fuel IH]; intros qs Hle Hfuel Hnum; cbn [fill].
  - assert (length qs = 15) by lia. repeat split; try easy. intros i Hi. lia.
  - destruct (Nat.ltb_spec (length qs) 15) as [Hlt|Hge].
    + destruct (IH (qs ++ [placeholder_question (Z.of_nat (length qs) + 1)]))
        as (H1 & H2 & H3 & H4).
      * rewrite length_app. cbn. lia.
      * rewrite length_app. cbn. lia.
      * intros i q Hq. apply lookup_app_Some in Hq as [Hq|[Hi Hq]]; [now apply Hnum|].
        apply list_lookup_singleton_Some in Hq as [Hi0 <-]. cbn.
        f_equal. lia.
      * split; [exact H1|]. split; [exact H2|]. split.
        -- intros i Hi. rewrite H3 by (rewrite length_app; cbn; lia).
           now apply lookup_app_l.
        -- intros i Hi. destruct (decide (i = length qs)) as [->|Hne].
           ++ rewrite H3 by (rewrite length_app; cbn; lia).
              rewrite lookup_app_r by lia. now rewrite Nat.sub_diag.
           ++ apply H4. rewrite length_app. cbn. lia.
    + assert (length qs = 15) by lia. repeat split; try easy. intros i Hi. lia.
Qed.

Lemma to_responses_spec (selected : list Question) :
  length (to_responses selected) = Nat.min 15 (length selected) /\
  numbered (to_responses selected).
Proof.
  unfold to_responses. split; [now rewrite length_imap, length_take|].
  intros i q Hq. rewrite list_lookup_imap in Hq.
  destruct (take 15 selected !! i); cbn in Hq; [|discriminate].
  now injection Hq as <-.
Qed.

Lemma default_questions_spec :
  length _get_default_questions = 15 /\ numbered _get_default_questions.
Proof.
  split; [reflexivity|]. intros i q Hq. unfold _get_default_questions in Hq.
  rewrite list_lookup_imap in Hq.
  destruct (default_questions !! i); cbn in Hq; [|discriminate].
  now injection Hq as <-.
Qed.

(** X19. [_generate_personalized_questions] always returns exactly fifteen
    questions, numbered 1 to 15 in order, whatever the survey holds and
    whatever the question store returns or raises. *)
Theorem X19_always_fifteen_questions (survey : survey_data) :
  exists qs,
    _generate_personalized_questions get_by_property lower survey = Returned qs /\
    length qs = 15 /\
    forall (i : nat) q, qs !! i = Some q -> qr_question_number q = (Z.of_nat i + 1)%Z.
Proof.
  unfold _generate_personalized_questions.
  destruct (select_questions get_by_property lower survey) as [selected|e].
  - destruct (to_responses_spec selected) as [Hlen Hnum].
    destruct (fill_spec 15 (to_responses selected)) as (H1 & H2 & _); try lia; [exact Hnum|].
    eexists. split; [reflexivity|]. now split.
  - eexists. split; [reflexivity|]. apply default_questions_spec.
Qed.

Lemma occupation_questions_length (o : option pystr) (l : list Question) :
  occupation_questions get_by_property o = Returned l -> length l <= 5.
Proof.
  unfold occupation_questions.
  repeat case_bool_decide;
    try (destruct (get_by_property _) as [qs|]; cbn [mbind result_bind Py.bind]; [|discriminate]);
    intros [= <-]; rewrite ?length_take; cbn [length]; lia.
Qed.

Lemma living_questions_length (o : option pystr) (l : list Question) :
  living_questions get_by_property o = Returned l -> length l <= 5.
Proof.
  unfold living_questions. destruct o as [living|]; [|discriminate].
  repeat (destruct (contains living _));
    try (destruct (get_by_property _) as [qs|]; cbn [mbind result_bind Py.bind]; [|discriminate]);
    intros [= <-]; rewrite ?length_take; cbn [length]; lia.
Qed.

Lemma hobby_loop_length (hs : list pystr) (acc l : list Question) :
  hobby_loop get_by_property lower hs acc = Returned l ->
  length l <= length acc + 2 * length hs.
Proof.
  revert acc. induction hs as [|h hs IH]; intros acc; cbn [hobby_loop].
  - intros [= <-]. cbn. lia.
  - destruct (get_by_property _) as [qs|]; cbn [mbind result_bind Py.bind]; [|discriminate].
    intros H. apply IH in H. rewrite length_app, length_take in H. cbn [length]. lia.
Qed.

Lemma hobby_questions_length (hs : list pystr) (l : list Question) :
  hobby_questions get_by_property lower hs = Returned l -> length l <= 4.
Proof.
  unfold hobby_questions. destruct hs as [|h hs]; [intros [= <-]; cbn; lia|].
  destruct (hobby_loop _ _ _ _) as [qs|] eqn:E; cbn [mbind result_bind Py.bind];
    [|discriminate].
  intros [= <-]. apply hobby_loop_length in E.
  rewrite length_take. rewrite length_take in E. cbn [length] in E. lia.
Qed.

(** The selection asks for general questions whenever it gets that far. *)
Lemma select_questions_general (survey : survey_data) (selected : list Question) :
  select_questions get_by_property lower survey = Returned selected ->
  exists personal general,
    get_by_property (u "general") = Returned general /\
    length personal <= 14 /\
    selected = personal ++ take (15 - length personal) general.
Proof.
  unfold select_questions.
  destruct (occupation_questions _ _) as [a|] eqn:Ea; cbn [mbind result_bind Py.bind]; [|discriminate].
  destruct (living_questions _ _) as [b|] eqn:Eb; cbn [mbind result_bind Py.bind]; [|discriminate].
  destruct (hobby_questions _ _ _) as [c|] eqn:Ec; cbn [mbind result_bind Py.bind]; [|discriminate].
  apply occupation_questions_length in Ea. apply living_questions_length in Eb.
  apply hobby_questions_length in Ec.
  assert (Hlen : length ((a ++ b) ++ c) <= 14) by (rewrite !length_app; lia).
  destruct (Nat.ltb_spec (length ((a ++ b) ++ c)) 15) as [_|Hge]; [|lia].
  destruct (get_by_property (u "general")) as [g|]; cbn [mbind result_bind Py.bind]; [|discriminate].
  intros [= <-]. now exists ((a ++ b) ++ c), g.
Qed.

(** X20. The occupation, living and hobby parts give at most 14 questions
    (the hobby part at most two for each of the first two hobbies), so the
    general questions are always asked for: when that query raises, the
    fifteen default questions are returned, and when it finds nothing, the
    fifteenth question of a selection that did not fail is the fixed
    "Tell me about yourself and your daily routine." *)
Theorem X20_general_questions_always_needed (survey : survey_data) :
  (forall e, get_by_property (u "general") = Raised e ->
     _generate_personalized_questions get_by_property lower survey
     = Returned _get_default_questions) /\
  (get_by_property (u "general") = Returned [] ->
   forall selected, select_questions get_by_property lower survey = Returned selected ->
     length selected <= 14 /\
     exists qs,
       _generate_personalized_questions get_by_property lower survey = Returned qs /\
       qs !! 14 = Some (placeholder_question 15)).
Proof.
  split.
  - intros e He. unfold _generate_personalized_questions.
    destruct (select_questions _ _ _) as [selected|] eqn:E; [|reflexivity].
    apply select_questions_general in E as (p & g & Hg & _). congruence.
  - intros Hg selected Hs. pose proof Hs as Hs'.
    apply select_questions_general in Hs' as (p & g & Hg' & Hp & ->).
    rewrite Hg in Hg'. injection Hg' as <-. rewrite take_nil, app_nil_r.
    split; [exact Hp|].
    unfold _generate_personalized_questions. rewrite Hs, take_nil, app_nil_r.
    eexists. split; [reflexivity|].
    destruct (to_responses_spec p) as [Hlen Hnum].
    destruct (fill_spec 15 (to_responses p)) as (_ & _ & _ & H4); try lia; [exact Hnum|].
    apply (H4 14). lia.
Qed.

Lemma result_bind_returned {A B} (c : result A) (k : A -> result B) (b : B) :
  c ≫= k = Returned b -> exists a, c = Returned a /\ k a = Returned b.
Proof.
  destruct c as [a|e]; cbn; [|discriminate]. intros H. now exists a.
Qed.

(** X21. [get_random_questions_by_survey] never returns more than fifteen
    questions, and returns fifteen when the general pool holds fifteen; it
    does not make up for missing questions: with every pool empty it returns
    none. *)
Theorem X21_random_questions_at_most_fifteen (survey : survey_data) :
  (forall qs, get_random_questions_by_survey get_by_property survey = Returned qs ->
     length qs <= 15 /\
     (forall general, get_by_property (u "general") = Returned general ->
        15 <= length general -> length qs = 15)) /\
  ((forall name, get_by_property name = Returned []) ->
   get_random_questions_by_survey get_by_property survey = Returned []).
Proof.
  unfold get_random_questions_by_survey. split.
  - intros qs H.
    apply result_bind_returned in H as (s1 & _ & H).
    apply result_bind_returned in H as (s2 & _ & H).
    apply result_bind_returned in H as (s3 & _ & H).
    apply result_bind_returned in H as (s4 & Hgen & H).
    injection H as <-. split; [rewrite length_take; lia|].
    intros general Hg Hlen. rewrite length_take.
    destruct (Nat.ltb_spec (length s3) 15) as [Hlt|Hge].
    + rewrite Hg in Hgen. cbn [mbind result_bind Py.bind] in Hgen.
      injection Hgen as <-. rewrite length_app, length_take. lia.
    + injection Hgen as <-. lia.
  - intros Hempty. rewrite !Hempty.
    destruct (truthy (occupation survey)), (truthy (living_situation survey)),
      (hobbies survey); reflexivity.
Qed.

End SurveyProperties.

(** ** Request validation and sessions *)

Section DepsProperties.

Import Deps.

(** X22. [validate_question_number] returns its argument exactly for the
    numbers 1 to 15 and raises a 400 for every other number; it accepts the
    number of every question [_generate_personalized_questions] returns. *)
Theorem X22_question_numbers_validate (n : Z) :
  (validate_question_number n = Ok n <-> (1 <= n <= 15)%Z) /\
  (~ (1 <= n <= 15)%Z ->
   validate_question_number n
   = HTTPException 400 "Question number must be between 1 and 15") /\
  (forall get_by_property lower survey qs q,
     SurveyService._generate_personalized_questions get_by_property lower survey
     = Returned qs ->
     q ∈ qs ->
     validate_question_number (SurveyService.qr_question_number q)
     = Ok (SurveyService.qr_question_number q)).
Proof.
  assert (Hiff : forall k, validate_question_number k = Ok k <-> (1 <= k <= 15)%Z).
  { intros k. unfold validate_question_number.
    destruct (Z.leb_spec 1 k) as [H1|H1]; destruct (Z.leb_spec k 15) as [H2|H2];
      cbn; split; intros H; try discriminate; try reflexivity; lia. }
  split; [apply Hiff|]. split.
  - intros Hn. unfold validate_question_number.
    destruct (Z.leb_spec 1 n) as [H1|H1]; destruct (Z.leb_spec n 15) as [H2|H2];
      cbn; try reflexivity; lia.
  - intros get_by_property lower survey qs q Hqs Hq.
    assert (Hspec : length qs = 15 /\ numbered qs).
    { unfold SurveyService._generate_personalized_questions in Hqs.
      destruct (SurveyService.select_questions _ _ _) as [selected|e];
        injection Hqs as <-; [|apply default_questions_spec].
      destruct (to_responses_spec selected) as [Hlen Hnum].
      destruct (fill_spec 15 (SurveyService.to_responses selected)) as (H1 & H2 & _);
        try lia; [exact Hnum | now split]. }
    destruct Hspec as [Hlen Hnum].
    apply list_elem_of_lookup in Hq as [i Hi].
    pose proof (lookup_lt_Some _ _ _ Hi) as Hlt.
    apply Hiff. rewrite (Hnum i q Hi). lia.
Qed.

(** X23. A student id that [validate_student_id] accepts comes back
    stripped: not empty, no white space at either end, and accepted
    unchanged when validated again. An id that is empty or white space only
    is refused with a 400. *)
Theorem X23_student_id_is_stripped (student_id : pystr) :
  (forall accepted, validate_student_id student_id = Ok accepted ->
     accepted = FeedbackService.strip student_id /\ accepted <> [] /\
     trimmed accepted /\ validate_student_id accepted = Ok accepted) /\
  (Forall (fun c => FeedbackService.is_space c = true) student_id ->
   validate_student_id student_id = HTTPException 400 "Student ID is required").
Proof.
  split.
  - intros accepted. unfold validate_student_id.
    case_bool_decide as He; cbn [orb]; [discriminate|].
    destruct (Nat.ltb_spec (length (FeedbackService.strip student_id)) 1) as [Hlt|Hge];
      [discriminate|].
    intros [= <-].
    assert (Hne : FeedbackService.strip student_id <> []).
    { intros H0. rewrite H0 in Hge. cbn in Hge. lia. }
    split; [reflexivity|]. split; [exact Hne|].
    split; [apply strip_trimmed|].
    rewrite (strip_fixed _ (strip_trimmed student_id)).
    rewrite (bool_decide_eq_false_2 _ Hne). cbn [orb].
    destruct (Nat.ltb_spec (length (FeedbackService.strip student_id)) 1); [lia|reflexivity].
  - intros Hall. unfold validate_student_id.
    assert (Hs : FeedbackService.strip student_id = []).
    { unfold FeedbackService.strip.
      assert (Hl : FeedbackService.lstrip student_id = []).
      { induction Hall as [|c s Hc _ IH]; cbn; [reflexivity | now rewrite Hc]. }
      now rewrite Hl. }
    rewrite Hs. cbn [length]. destruct (bool_decide (student_id = [])); reflexivity.
Qed.

(** X24. The session store gives back what was stored under a session id
    until it is removed or stored again, and storing or removing one session
    changes no other; removing a session that is not there changes nothing;
    without a session id, or with an empty one, there is no user. *)
Theorem X24_session_store (user_data : Type) (_users : gmap pystr user_data)
    (session_id : pystr) (data : user_data) :
  get_user user_data (set_user user_data _users session_id data) session_id = Some data /\
  get_user user_data (remove_user user_data _users session_id) session_id = None /\
  (forall other, other <> session_id ->
     get_user user_data (set_user user_data _users session_id data) other
     = get_user user_data _users other /\
     get_user user_data (remove_user user_data _users session_id) other
     = get_user user_data _users other) /\
  (get_user user_data _users session_id = None ->
   remove_user user_data _users session_id = _users) /\
  (forall data', set_user user_data (set_user user_data _users session_id data')
                   session_id data
                 = set_user user_data _users session_id data) /\
  get_session_user user_data (set_user user_data _users session_id data) None = None /\
  get_session_user user_data (set_user user_data _users [] data) (Some []) = None /\
  (session_id <> [] ->
   get_session_user user_data (set_user user_data _users session_id data)
     (Some session_id) = Some data).
Proof.
  unfold get_user, set_user, remove_user, get_session_user.
  repeat split.
  - apply lookup_insert_eq.
  - apply lookup_delete_eq.
  - now apply lookup_insert_ne.
  - now apply lookup_delete_ne.
  - intros H. now apply delete_id.
  - intros data'. apply insert_insert_eq.
  - intros Hne. destruct session_id; [congruence|]. apply lookup_insert_eq.
Qed.

End DepsProperties.
